(** * VSModNavigator: the reference resolver of [src/extension.ts]

    A shallow embedding of the go-to-definition / hover logic of the
    extension: cross-reference resolution ([resolveVintageStoryPath]),
    the domain existence check ([checkDomainExists]), property lookup
    ([findProperty]) and the JSON-pointer walk inside
    [resolvePathDefinition].

    The editor, the file system, Node's [path] module and the
    [jsonc-parser] library are external to the repository; what the
    extension asks of them is gathered in the record [Host].

    The two providers ([provideDefinition], [provideHover]) and the mod
    downloader ([modDownloader.ts]: [downloadMod], [fetchJson],
    [downloadFile], and the command that calls them) follow; the
    downloader runs against an environment [Downloader.Env] and
    records the events it causes. *)

From Stdlib Require Import List ZArith NArith Bool String Ascii Lia.
From Stdlib Require Import Permutation.
Import ListNotations.

(* ================================================================== *)
(** ** JavaScript strings and the built-ins the extension calls *)

Module JS.

(** A JavaScript string is a sequence of UTF-16 code units. *)
Definition jsstring := list N.

(** String literals of the source, written in ASCII. *)
Definition lit (s : String.string) : jsstring :=
  map N_of_ascii (list_ascii_of_string s).

(** [a === b] on two strings. *)
Fixpoint eqb (a b : jsstring) : bool :=
  match a, b with
  | [], [] => true
  | x :: a', y :: b' => N.eqb x y && eqb a' b'
  | _, _ => false
  end.

(** [s.startsWith(prefix)]. *)
Fixpoint startsWith (s prefix : jsstring) {struct prefix} : bool :=
  match prefix, s with
  | [], _ => true
  | p :: prefix', c :: s' => N.eqb c p && startsWith s' prefix'
  | _ :: _, [] => false
  end.

(** [s.split(sep)] for a one-character separator: always at least one
    part, one more part than there are separators. *)
Fixpoint split (sep : N) (s : jsstring) : list jsstring :=
  match s with
  | [] => [[]]
  | c :: s' =>
      if N.eqb c sep then [] :: split sep s'
      else match split sep s' with
           | part :: parts => (c :: part) :: parts
           | [] => [[c]]
           end
  end.

(** Number of occurrences of a code unit. *)
Definition count (sep : N) (s : jsstring) : nat :=
  List.length (filter (N.eqb sep) s).

(** ECMAScript [StrWhiteSpaceChar]: WhiteSpace and LineTerminator. *)
Definition isStrWhiteSpaceChar (c : N) : bool :=
  (existsb (N.eqb c)
     [0x09; 0x0A; 0x0B; 0x0C; 0x0D; 0x20; 0xA0; 0x1680; 0x2028; 0x2029;
      0x202F; 0x205F; 0x3000; 0xFEFF]%N)
  || (N.leb 0x2000 c && N.leb c 0x200A).

Fixpoint trimStart (s : jsstring) : jsstring :=
  match s with
  | c :: s' => if isStrWhiteSpaceChar c then trimStart s' else s
  | [] => []
  end.

(** Value of a code unit as a digit of radix [R], if it is one. *)
Definition digitValue (R : Z) (c : N) : option Z :=
  let v :=
    if N.leb 48 c && N.leb c 57 then Some (Z.of_N c - 48)%Z
    else if N.leb 97 c && N.leb c 122 then Some (Z.of_N c - 87)%Z
    else if N.leb 65 c && N.leb c 90 then Some (Z.of_N c - 55)%Z
    else None in
  match v with
  | Some d => if (d <? R)%Z then Some d else None
  | None => None
  end.

(** The longest prefix of radix-[R] digits, read as a number; [acc] is
    [None] as long as no digit has been read. *)
Fixpoint digits (R : Z) (s : jsstring) (acc : option Z) : option Z :=
  match s with
  | c :: s' =>
      match digitValue R c with
      | Some d =>
          digits R s'
            (Some (match acc with Some a => a * R + d | None => d end)%Z)
      | None => acc
      end
  | [] => acc
  end.

(** [parseInt(string)] with no radix argument (ECMAScript 19.2.5):
    leading white space is skipped, then an optional sign, then an
    optional [0x]/[0X] prefix selecting radix 16; the longest prefix
    of digits is read and whatever follows is ignored.  [None] is
    [NaN].

    The model keeps the exact integer.  JavaScript rounds to a double
    above 2^53 and returns [-0] for a negative zero; neither changes
    how the result compares with an array length or which element it
    selects. *)
Definition parseInt (string : jsstring) : option Z :=
  let str := trimStart string in
  let '(sign, str) :=
    match str with
    | c :: str' =>
        if N.eqb c 45 then ((-1)%Z, str')
        else if N.eqb c 43 then (1%Z, str')
        else (1%Z, str)
    | [] => (1%Z, str)
    end in
  let '(R, str) :=
    match str with
    | c0 :: c1 :: str' =>
        if N.eqb c0 48 && (N.eqb c1 120 || N.eqb c1 88) then (16%Z, str')
        else (10%Z, str)
    | _ => (10%Z, str)
    end in
  match digits R str None with
  | Some mathInt => Some (sign * mathInt)%Z
  | None => None
  end.

(** [a[index]] for a numeric index: [undefined] outside the array. *)
Definition index {A : Type} (a : list A) (i : Z) : option A :=
  if (i <? 0)%Z then None else nth_error a (Z.to_nat i).

End JS.

Notation "'js' s" := (JS.lit s%string) (at level 9, s at level 0, only parsing).

(* ================================================================== *)
(** ** The parsed document tree of [jsonc-parser] *)

Module jsonc.

(** [NodeType]: the string tags ['object'], ['array'], ... *)
Inductive NodeType :=
| NObject | NArray | NProperty | NString | NNumber | NBoolean | NNull.

Definition NodeType_eqb (a b : NodeType) : bool :=
  match a, b with
  | NObject, NObject | NArray, NArray | NProperty, NProperty
  | NString, NString | NNumber, NNumber | NBoolean, NBoolean
  | NNull, NNull => true
  | _, _ => false
  end.

(** The [value] field is typed [any]: a string for string nodes, a
    number, boolean or [null] for the other scalars.  The extension
    only ever compares it with strings or uses it as one, so the
    payload of a number is kept as an integer. *)
Inductive JValue :=
| JString (s : JS.jsstring)
| JNumber (n : Z)
| JBoolean (b : bool)
| JNull.

(** [interface Node]; optional fields are options ([None] is
    [undefined]).  The [parent] back pointer is kept outside the node,
    in [Located]. *)
#[warnings="-register-all"]
Inductive Node := mkNode {
  type : NodeType;
  value : option JValue;
  offset : Z;
  length : Z;
  children : option (list Node)
}.

(** A node together with its chain of [parent] pointers, nearest
    first; the last one is the root of the tree. *)
Record Located := mkLocated {
  node : Node;
  ancestors : list Node
}.

(** [n.parent] *)
Definition parent (n : Located) : option Located :=
  match ancestors n with
  | p :: up => Some (mkLocated p up)
  | [] => None
  end.

(** [n.children?.[i]] *)
Definition child (i : nat) (n : Node) : option Node :=
  match children n with
  | Some cs => nth_error cs i
  | None => None
  end.

(** [v === key] for a string [key]. *)
Definition value_is (v : option JValue) (key : JS.jsstring) : bool :=
  match v with
  | Some (JString s) => JS.eqb s key
  | _ => false
  end.

End jsonc.

(* ================================================================== *)
(** ** The editor API ([vscode]) as far as the resolver uses it *)

Module vscode.

(** A file [Uri]; [Uri.file(p).fsPath] is taken to be [p]. *)
Record Uri := file { fsPath : JS.jsstring }.

Record Position := mkPosition { line : Z; character : Z }.

Record Range := mkRange { start : Position; stop : Position }.

Record Location := mkLocation { uri : Uri; range : Range }.

(** [new Location(uri, position)]: the empty range at [position]. *)
Definition Location_at (u : Uri) (p : Position) : Location :=
  mkLocation u (mkRange p p).

Record WorkspaceFolder := mkWorkspaceFolder {
  name : JS.jsstring;
  folder_uri : Uri
}.

(** [enum FileType]: a bit mask; a symbolic link to a directory is
    [Directory | SymbolicLink = 66]. *)
Definition FileType := N.
Definition Directory : FileType := 2%N.

Record TextDocument := mkTextDocument {
  getText : JS.jsstring;
  positionAt : Z -> Position
}.

End vscode.

(** What the resolver asks of its environment at one request: Node's
    [path.join] and [fs.existsSync], the editor's workspace and
    documents, and the parser.  Operations that can throw return an
    option, [None] standing for the exception. *)
Record Host := mkHost {
  path_join : list JS.jsstring -> JS.jsstring;
  existsSync : JS.jsstring -> bool;
  readDirectory : vscode.Uri -> option (list (JS.jsstring * vscode.FileType));
  workspaceFolders : option (list vscode.WorkspaceFolder);
  openTextDocument : vscode.Uri -> option vscode.TextDocument;
  parseTree : JS.jsstring -> option jsonc.Node
}.

(* ================================================================== *)
(** ** [src/extension.ts] *)

Import jsonc vscode.

(** Outcome of an [async] function: a value, or a rejected promise. *)
Inductive Completion (A : Type) :=
| Normal (a : A)
| Throw.
Arguments Normal {A} a.
Arguments Throw {A}.

(** [isMatchingFolder] (lines 234 and 269): the name is the domain, or
    starts with the domain followed by [_] or [-]. *)
Definition isMatchingFolder (domain name : JS.jsstring) : bool :=
  JS.eqb name domain
  || JS.startsWith name (domain ++ js"_")
  || JS.startsWith name (domain ++ js"-").

(** The test of [findProperty]'s loop body (lines 299-303): a property
    child with at least one child, the first of which has [key] as its
    value. *)
Definition has_key (key : JS.jsstring) (child : Node) : bool :=
  match type child, children child with
  | NProperty, Some (keyNode :: _) => value_is (value keyNode) key
  | _, _ => false
  end.

(** [findProperty] (lines 294-307): the first child that passes the
    test, in the order of the child list. *)
Definition findProperty (node : Node) (key : JS.jsstring) : option Node :=
  match type node, children node with
  | NObject, Some cs => find (has_key key) cs
  | _, _ => None
  end.

(** One round of the pointer loop (lines 179-201) on a defined
    [currentNode]; the result is the new [currentNode]. *)
Definition walk_step (currentNode : Node) (part : JS.jsstring) : option Node :=
  match type currentNode with
  | NArray =>
      match JS.parseInt part, children currentNode with
      | Some index, Some cs =>
          if (index <? Z.of_nat (List.length cs))%Z then JS.index cs index
          else None
      | _, _ => None
      end
  | NObject =>
      match findProperty currentNode part with
      | Some property =>
          match child 0 property with
          | Some keyNode => Some keyNode
          | None => child 1 property
          end
      | None => None
      end
  | _ => None
  end.

(** The loop of lines 174-202: [currentNode] starts at the tree and,
    once [undefined], stays so ([break]). *)
Definition walkPointer (tree : Node) (pathParts : list JS.jsstring)
  : option Node :=
  fold_left
    (fun currentNode part =>
       match currentNode with
       | Some n => walk_step n part
       | None => None
       end)
    pathParts (Some tree).

(** Line 173: [jsonPointer.split('/').filter(p => p.length > 0)]. *)
Definition pathParts (jsonPointer : JS.jsstring) : list JS.jsstring :=
  filter (fun p => negb (Nat.eqb (List.length p) 0)) (JS.split 47 jsonPointer).

(** Lines 171-211: the location reported once the target document is
    open and parsed. *)
Definition locateInTree (targetUri : Uri) (doc : TextDocument) (tree : Node)
  (jsonPointer : JS.jsstring) : Location :=
  match walkPointer tree (pathParts jsonPointer) with
  | Some currentNode =>
      mkLocation targetUri
        (mkRange (positionAt doc (offset currentNode))
                 (positionAt doc (offset currentNode + length currentNode)))
  | None => Location_at targetUri (mkPosition 0 0)
  end.

Section Resolver.

Variable h : Host.

(** Strategy 1 of [resolveVintageStoryPath] (lines 238-243). *)
Definition resolve_own (domain relativePath : JS.jsstring)
  (folder : WorkspaceFolder) : option Uri :=
  if isMatchingFolder domain (name folder) then
    let potentialPath :=
      path_join h [fsPath (folder_uri folder); js"assets"; domain; relativePath] in
    if existsSync h potentialPath then Some (file potentialPath) else None
  else None.

(** The inner loop of strategy 2 (lines 248-255). *)
Fixpoint resolve_children (domain relativePath : JS.jsstring)
  (folder : WorkspaceFolder) (entries : list (JS.jsstring * FileType))
  : option Uri :=
  match entries with
  | [] => None
  | (name, type) :: rest =>
      if N.eqb type Directory && isMatchingFolder domain name then
        let potentialPath :=
          path_join h
            [fsPath (folder_uri folder); name; js"assets"; domain; relativePath] in
        if existsSync h potentialPath then Some (file potentialPath)
        else resolve_children domain relativePath folder rest
      else resolve_children domain relativePath folder rest
  end.

(** Strategy 2 (lines 246-258); a failing [readDirectory] is caught and
    the folder contributes nothing. *)
Definition resolve_subdirs (domain relativePath : JS.jsstring)
  (folder : WorkspaceFolder) : option Uri :=
  match readDirectory h (folder_uri folder) with
  | Some entries => resolve_children domain relativePath folder entries
  | None => None
  end.

(** The loop over the workspace folders (lines 236-259). *)
Fixpoint resolve_folders (domain relativePath : JS.jsstring)
  (folders : list WorkspaceFolder) : option Uri :=
  match folders with
  | [] => None
  | folder :: rest =>
      match resolve_own domain relativePath folder with
      | Some found => Some found
      | None =>
          match resolve_subdirs domain relativePath folder with
          | Some found => Some found
          | None => resolve_folders domain relativePath rest
          end
      end
  end.

(** [resolveVintageStoryPath] (lines 219-262). *)
Definition resolveVintageStoryPath (pathStr : JS.jsstring) : option Uri :=
  match JS.split 58 pathStr with
  | [domain; relativePath] =>
      match workspaceFolders h with
      | None => None
      | Some folders => resolve_folders domain relativePath folders
      end
  | _ => None
  end.

(** The inner loop of [checkDomainExists] (lines 281-286). *)
Fixpoint exists_children (domain : JS.jsstring) (folder : WorkspaceFolder)
  (entries : list (JS.jsstring * FileType)) : bool :=
  match entries with
  | [] => false
  | (name, type) :: rest =>
      if N.eqb type Directory && isMatchingFolder domain name then
        let assetsPath :=
          path_join h [fsPath (folder_uri folder); name; js"assets"; domain] in
        if existsSync h assetsPath then true
        else exists_children domain folder rest
      else exists_children domain folder rest
  end.

(** The loop over the workspace folders (lines 271-290). *)
Fixpoint exists_folders (domain : JS.jsstring) (folders : list WorkspaceFolder)
  : bool :=
  match folders with
  | [] => false
  | folder :: rest =>
      if isMatchingFolder domain (name folder)
         && existsSync h
              (path_join h [fsPath (folder_uri folder); js"assets"; domain])
      then true
      else
        match readDirectory h (folder_uri folder) with
        | Some entries =>
            if exists_children domain folder entries then true
            else exists_folders domain rest
        | None => exists_folders domain rest
        end
  end.

(** [checkDomainExists] (lines 264-292). *)
Definition checkDomainExists (domain : JS.jsstring) : bool :=
  match workspaceFolders h with
  | None => false
  | Some folders => exists_folders domain folders
  end.

(** [resolveFileDefinition] (lines 127-135). *)
Definition resolveFileDefinition (fileString : JS.jsstring) : option Location :=
  match resolveVintageStoryPath fileString with
  | Some targetUri => Some (Location_at targetUri (mkPosition 0 0))
  | None => None
  end.

(** [resolvePathDefinition] (lines 137-217).  [fileValueNode.value] is
    typed [any]: were it not a string, [pathStr.split] would raise
    outside the [try] block. *)
Definition resolvePathDefinition (pathNode : Located) (jsonPointer : JS.jsstring)
  : Completion (option Location) :=
  match option_map node
          (match parent pathNode with Some p => parent p | None => None end) with
  | None => Normal None
  | Some parent =>
      if negb (NodeType_eqb (type parent) NObject) then Normal None
      else
        match findProperty parent (js"file") with
        | None => Normal None
        | Some fileProperty =>
            match child 1 fileProperty with
            | None => Normal None
            | Some fileValueNode =>
                if negb (NodeType_eqb (type fileValueNode) NString)
                then Normal None
                else
                  match value fileValueNode with
                  | Some (JString fileString) =>
                      match resolveVintageStoryPath fileString with
                      | None => Normal None
                      | Some targetUri =>
                          match openTextDocument h targetUri with
                          | None => Normal None
                          | Some doc =>
                              match parseTree h (getText doc) with
                              | None =>
                                  Normal (Some (Location_at targetUri
                                                  (mkPosition 0 0)))
                              | Some tree =>
                                  Normal (Some (locateInTree targetUri doc
                                                  tree jsonPointer))
                              end
                          end
                      end
                  | _ => Throw
                  end
            end
        end
  end.

End Resolver.

(* ================================================================== *)
(** ** The specification's wording, for comparison with the code *)

(** The candidate paths [resolveVintageStoryPath] tests, in the order
    it tests them: per folder, the folder itself when its name matches,
    then its matching subdirectories in listing order. *)
Definition own_candidate (h : Host) (domain relativePath : JS.jsstring)
  (folder : WorkspaceFolder) : list JS.jsstring :=
  if isMatchingFolder domain (name folder)
  then [path_join h [fsPath (folder_uri folder); js"assets"; domain; relativePath]]
  else [].

Definition is_matching_subdir (domain : JS.jsstring)
  (entry : JS.jsstring * FileType) : bool :=
  N.eqb (snd entry) Directory && isMatchingFolder domain (fst entry).

Definition subdir_candidates (h : Host) (domain relativePath : JS.jsstring)
  (folder : WorkspaceFolder) : list JS.jsstring :=
  match readDirectory h (folder_uri folder) with
  | Some entries =>
      map (fun entry =>
             path_join h [fsPath (folder_uri folder); fst entry; js"assets";
                          domain; relativePath])
          (filter (is_matching_subdir domain) entries)
  | None => []
  end.

Definition candidates (h : Host) (domain relativePath : JS.jsstring)
  (folders : list WorkspaceFolder) : list JS.jsstring :=
  flat_map (fun folder => own_candidate h domain relativePath folder
                          ++ subdir_candidates h domain relativePath folder)
           folders.

(** The domain pattern: the domain itself, or the domain followed by
    [_] or [-] and anything. *)
Definition matches_domain_pattern (domain name : JS.jsstring) : Prop :=
  name = domain \/
  exists suffix, name = domain ++ js"_" ++ suffix \/ name = domain ++ js"-" ++ suffix.

(** A folder in which the domain is present: the folder itself, or an
    entry of type Directory in its listing, matches the pattern and has
    [assets/<domain>]. *)
Definition folder_holds_domain (h : Host) (domain : JS.jsstring)
  (folder : WorkspaceFolder) : Prop :=
  (matches_domain_pattern domain (name folder) /\
   existsSync h (path_join h [fsPath (folder_uri folder); js"assets"; domain]) = true)
  \/
  (exists entries sub,
     readDirectory h (folder_uri folder) = Some entries /\
     In (sub, Directory) entries /\
     matches_domain_pattern domain sub /\
     existsSync h (path_join h [fsPath (folder_uri folder); sub; js"assets"; domain])
     = true).

(** Section 4.1 of the specification, as worded: a directory is written
    as the list of path segments leading to it.  Step 1 runs over all
    folders, then step 2 over all folders. *)
Definition has_assets_spec (h : Host) (domain : JS.jsstring)
  (dir : list JS.jsstring) : bool :=
  existsSync h (path_join h (dir ++ [js"assets"; domain])).

Definition locateDomain_step1_spec (h : Host) (domain : JS.jsstring)
  (folders : list WorkspaceFolder) : option (list JS.jsstring) :=
  option_map (fun folder => [fsPath (folder_uri folder)])
    (find (fun folder =>
             isMatchingFolder domain (name folder)
             && has_assets_spec h domain [fsPath (folder_uri folder)])
          folders).

Definition locateDomain_step2_spec (h : Host) (domain : JS.jsstring)
  (folders : list WorkspaceFolder) : option (list JS.jsstring) :=
  hd_error
    (flat_map
       (fun folder =>
          match readDirectory h (folder_uri folder) with
          | Some entries =>
              filter (has_assets_spec h domain)
                (map (fun entry => [fsPath (folder_uri folder); fst entry])
                   (filter (is_matching_subdir domain) entries))
          | None => []
          end)
       folders).

Definition locateDomain_spec (h : Host) (domain : JS.jsstring)
  : option (list JS.jsstring) :=
  match workspaceFolders h with
  | None => None
  | Some folders =>
      match locateDomain_step1_spec h domain folders with
      | Some dir => Some dir
      | None => locateDomain_step2_spec h domain folders
      end
  end.

(** Section 4.2 of the specification, as worded: one candidate, under
    the directory the locator chose. *)
Definition resolveReference_spec (h : Host) (token : JS.jsstring) : option Uri :=
  match JS.split 58 token with
  | [domain; relativePath] =>
      match locateDomain_spec h domain with
      | Some ownerDir =>
          let candidate :=
            path_join h (ownerDir ++ [js"assets"; domain; relativePath]) in
          if existsSync h candidate then Some (file candidate) else None
      | None => None
      end
  | _ => None
  end.

(** Section 4.3 of the specification, as worded: a segment that is a
    non-negative integer, that is a non-empty run of decimal digits. *)
Definition is_decimal_digit (c : N) : bool := N.leb 48 c && N.leb c 57.

Definition is_index_spec (segment : JS.jsstring) : bool :=
  negb (Nat.eqb (List.length segment) 0) && forallb is_decimal_digit segment.

(** The decimal value of a run of digits. *)
Definition decimal (digits : JS.jsstring) : Z :=
  fold_left (fun acc c => (acc * 10 + (Z.of_N c - 48))%Z) digits 0%Z.

(** What [jsonc-parser] guarantees of an object node: the first child of
    each of its properties is the string node of the key. *)
Definition key_nodes_are_strings (obj : Node) : bool :=
  match children obj with
  | Some cs =>
      forallb (fun p => match child 0 p with
                        | Some keyNode => NodeType_eqb (type keyNode) NString
                        | None => true
                        end) cs
  | None => true
  end.

(** The ways one round of the loop can fail (section 4.3, step 3). *)
Inductive step_fails (currentNode : Node) (part : JS.jsstring) : Prop :=
| fails_unparsable_index :
    type currentNode = NArray -> JS.parseInt part = None ->
    step_fails currentNode part
| fails_index_out_of_range (index : Z) (cs : list Node) :
    type currentNode = NArray -> JS.parseInt part = Some index ->
    children currentNode = Some cs ->
    (index < 0 \/ Z.of_nat (List.length cs) <= index)%Z ->
    step_fails currentNode part
| fails_missing_key :
    type currentNode = NObject -> findProperty currentNode part = None ->
    step_fails currentNode part
| fails_scalar :
    type currentNode <> NArray -> type currentNode <> NObject ->
    step_fails currentNode part.

(** The request reaches line 171 of [resolvePathDefinition]: the
    enclosing object has a [file] property whose string value resolves
    to [targetUri], the document opens and its text parses to [tree]. *)
Definition reaches_target (h : Host) (pathNode : Located) (targetUri : Uri)
  (doc : TextDocument) (tree : Node) : Prop :=
  exists par parent up fileProperty fileValueNode fileString,
    ancestors pathNode = par :: parent :: up /\
    type parent = NObject /\
    findProperty parent (js"file") = Some fileProperty /\
    child 1 fileProperty = Some fileValueNode /\
    type fileValueNode = NString /\
    value fileValueNode = Some (JString fileString) /\
    resolveVintageStoryPath h fileString = Some targetUri /\
    openTextDocument h targetUri = Some doc /\
    parseTree h (getText doc) = Some tree.

(** The range of a node in a document (lines 205-207). *)
Definition node_range (doc : TextDocument) (n : Node) : Range :=
  mkRange (positionAt doc (offset n)) (positionAt doc (offset n + length n)).

(* ================================================================== *)
(** ** Concrete documents and workspaces *)

Definition str_node (s : JS.jsstring) (off len : Z) : Node :=
  mkNode NString (Some (JString s)) off len None.
Definition num_node (n : Z) (off len : Z) : Node :=
  mkNode NNumber (Some (JNumber n)) off len None.
Definition prop_node (off len : Z) (keyNode valueNode : Node) : Node :=
  mkNode NProperty None off len (Some [keyNode; valueNode]).
Definition obj_node (off len : Z) (props : list Node) : Node :=
  mkNode NObject None off len (Some props).
Definition arr_node (off len : Z) (items : list Node) : Node :=
  mkNode NArray None off len (Some items).

(** The tree of [[{"ingredients": ["a","b"]}]]. *)
Definition ingredients_key : Node := str_node (js"ingredients") 2 13.
Definition ingredients_value : Node :=
  arr_node 17 9 [str_node (js"a") 18 3; str_node (js"b") 22 3].
Definition ingredients_tree : Node :=
  arr_node 0 28 [obj_node 1 26 [prop_node 2 24 ingredients_key ingredients_value]].

(** The text of [ingredients_tree]. *)
Definition ingredients_text : JS.jsstring :=
  js"[{" ++ (34%N :: js"ingredients" ++ [34%N]) ++ js": ["
  ++ (34%N :: js"a" ++ [34%N]) ++ js"," ++ (34%N :: js"b" ++ [34%N]) ++ js"]}]".

(** The tree of [[1,2]]. *)
Definition pair_tree : Node := arr_node 0 5 [num_node 1 1 1; num_node 2 3 1].

(** The tree of [[10,20,30]]. *)
Definition thirty : Node := num_node 30 7 2.
Definition three_tree : Node :=
  arr_node 0 10 [num_node 10 1 2; num_node 20 4 2; thirty].

(** The tree of [{"a":1,"a":2}]: a duplicated key. *)
Definition dup_first : Node := prop_node 1 5 (str_node (js"a") 1 3) (num_node 1 5 1).
Definition dup_second : Node := prop_node 7 5 (str_node (js"a") 7 3) (num_node 2 11 1).
Definition dup_tree : Node := obj_node 0 13 [dup_first; dup_second].

(** The tree of [{"file": "foo:a.json", "path": "5"}] and its ["5"]
    node with its parent chain. *)
Definition request_file : Node :=
  prop_node 1 20 (str_node (js"file") 1 6) (str_node (js"foo:a.json") 9 12).
Definition request_path_value : Node := str_node (js"5") 31 3.
Definition request_path : Node :=
  prop_node 23 11 (str_node (js"path") 23 6) request_path_value.
Definition request_tree : Node := obj_node 0 35 [request_file; request_path].
Definition request_node : Located :=
  mkLocated request_path_value [request_path; request_tree].

(** The tree of [{"file": "foo:a.json", "file": "bar:b.json", "path": "/1"}]:
    two [file] properties, and the ["/1"] node with its parent chain. *)
Definition dup_request_first : Node :=
  prop_node 1 20 (str_node (js"file") 1 6) (str_node (js"foo:a.json") 9 12).
Definition dup_request_second : Node :=
  prop_node 23 20 (str_node (js"file") 23 6) (str_node (js"bar:b.json") 31 12).
Definition dup_request_path_value : Node := str_node (js"/1") 53 4.
Definition dup_request_path : Node :=
  prop_node 45 12 (str_node (js"path") 45 6) dup_request_path_value.
Definition dup_request_tree : Node :=
  obj_node 0 58 [dup_request_first; dup_request_second; dup_request_path].
Definition dup_request_node : Located :=
  mkLocated dup_request_path_value [dup_request_path; dup_request_tree].

(** The tree of [{"path": "5"}]: no sibling [file]. *)
Definition orphan_path_value : Node := str_node (js"5") 9 3.
Definition orphan_path : Node :=
  prop_node 1 11 (str_node (js"path") 1 6) orphan_path_value.
Definition orphan_tree : Node := obj_node 0 13 [orphan_path].
Definition orphan_node : Located :=
  mkLocated orphan_path_value [orphan_path; orphan_tree].

(** [path.join] on POSIX for plain segments (no [.], [..], empty or
    slash-terminated segment): the segments separated by [/]. *)
Fixpoint posix_join (parts : list JS.jsstring) : JS.jsstring :=
  match parts with
  | [] => js"."
  | [p] => p
  | p :: rest => p ++ 47%N :: posix_join rest
  end.

Fixpoint lookup {A : Type} (k : JS.jsstring) (l : list (JS.jsstring * A))
  : option A :=
  match l with
  | [] => None
  | (k', v) :: rest => if JS.eqb k k' then Some v else lookup k rest
  end.

(** A document of one line: offsets are columns of line 0, clamped to
    the text. *)
Definition one_line_document (text : JS.jsstring) : TextDocument :=
  mkTextDocument text
    (fun o => mkPosition 0 (Z.max 0 (Z.min o (Z.of_nat (List.length text))))).

(** A host given by the paths that exist, the directory listings, the
    workspace folders, the text of the files and the parser's result on
    those texts. *)
Definition disk_host (paths : list JS.jsstring)
  (listings : list (JS.jsstring * list (JS.jsstring * FileType)))
  (folders : list WorkspaceFolder)
  (texts : list (JS.jsstring * JS.jsstring))
  (trees : list (JS.jsstring * Node)) : Host :=
  mkHost posix_join
    (fun p => existsb (JS.eqb p) paths)
    (fun u => lookup (fsPath u) listings)
    (Some folders)
    (fun u => option_map one_line_document (lookup (fsPath u) texts))
    (fun text => lookup text trees).

(** Workspace folder [foo] at [/foo] holding [assets/foo/a.json] with
    text [[1,2]]. *)
Definition foo_folder : WorkspaceFolder :=
  mkWorkspaceFolder (js"foo") (file (js"/foo")).

Definition pair_host : Host :=
  disk_host [js"/foo"; js"/foo/assets"; js"/foo/assets/foo";
             js"/foo/assets/foo/a.json"]
    [(js"/foo", [(js"assets", Directory)])]
    [foo_folder]
    [(js"/foo/assets/foo/a.json", js"[1,2]")]
    [(js"[1,2]", pair_tree)].

(** The same workspace with an empty [a.json]: the parser returns no
    tree for an empty text. *)
Definition empty_host : Host :=
  disk_host [js"/foo"; js"/foo/assets"; js"/foo/assets/foo";
             js"/foo/assets/foo/a.json"]
    [(js"/foo", [(js"assets", Directory)])]
    [foo_folder]
    [(js"/foo/assets/foo/a.json", [])]
    [].

(** Two versions of one mod open side by side: [foo_1] has
    [assets/foo] but not [x.json], [foo_2] has both. *)
Definition versions_host : Host :=
  disk_host [js"/w/foo_1/assets/foo"; js"/w/foo_2/assets/foo";
             js"/w/foo_2/assets/foo/x.json"]
    [(js"/w/foo_1", [(js"assets", Directory)]);
     (js"/w/foo_2", [(js"assets", Directory)])]
    [mkWorkspaceFolder (js"foo_1") (file (js"/w/foo_1"));
     mkWorkspaceFolder (js"foo_2") (file (js"/w/foo_2"))]
    [] [].

(** Folder [ws] with the mod in subdirectory [foo_1], opened before
    folder [foo], which is the mod itself. *)
Definition nested_host : Host :=
  disk_host [js"/w/foo_1/assets/foo"; js"/w/foo_1/assets/foo/x.json";
             js"/foo/assets/foo"; js"/foo/assets/foo/x.json"]
    [(js"/w", [(js"foo_1", Directory)]);
     (js"/foo", [(js"assets", Directory)])]
    [mkWorkspaceFolder (js"ws") (file (js"/w")); foo_folder]
    [] [].

(** Folder [foo_1.2.3] without [assets/foo]. *)
Definition bare_host : Host :=
  disk_host [js"/w/foo_1.2.3"; js"/w/foo_1.2.3/readme.txt"]
    [(js"/w/foo_1.2.3", [(js"readme.txt", 1%N)])]
    [mkWorkspaceFolder (js"foo_1.2.3") (file (js"/w/foo_1.2.3"))]
    [] [].

(* ================================================================== *)
(** ** The providers of [src/extension.ts] *)

(** What the two providers ask on top of [Host]: [jsonc.findNodeAtOffset],
    which returns a node with its parent pointers, the document's
    [offsetAt], and [encodeURIComponent(JSON.stringify([domain]))],
    the argument string of the download command link ([JSON.stringify]
    escapes lone surrogates, so the encoding does not raise). *)
Record Editor := mkEditor {
  host : Host;
  findNodeAtOffset : Node -> Z -> option Located;
  offsetAt : TextDocument -> Position -> Z;
  commandArgs : JS.jsstring -> JS.jsstring
}.

(** Where [resolvePathDefinition] stands when it reaches line 171, or
    how it ended before (lines 139-169). *)
Inductive PathTarget :=
| NoTarget
| Rejected
| Unparsed (targetUri : Uri)
| Parsed (targetUri : Uri) (doc : TextDocument) (tree : Node).

Definition resolvePathTarget (h : Host) (pathNode : Located) : PathTarget :=
  match option_map node
          (match parent pathNode with Some p => parent p | None => None end) with
  | None => NoTarget
  | Some parent =>
      if negb (NodeType_eqb (type parent) NObject) then NoTarget
      else
        match findProperty parent (js"file") with
        | None => NoTarget
        | Some fileProperty =>
            match child 1 fileProperty with
            | None => NoTarget
            | Some fileValueNode =>
                if negb (NodeType_eqb (type fileValueNode) NString)
                then NoTarget
                else
                  match value fileValueNode with
                  | Some (JString fileString) =>
                      match resolveVintageStoryPath h fileString with
                      | None => NoTarget
                      | Some targetUri =>
                          match openTextDocument h targetUri with
                          | None => NoTarget
                          | Some doc =>
                              match parseTree h (getText doc) with
                              | None => Unparsed targetUri
                              | Some tree => Parsed targetUri doc tree
                              end
                          end
                      end
                  | _ => Rejected
                  end
            end
        end
  end.

(** [provideDefinition] (lines 78-125).  The whole body is inside
    [try]: a rejected call yields [undefined].  The [value] of a string
    node is typed [any]; were it not a string, [resolveFileDefinition]
    would raise at [split] (caught), and [resolvePathDefinition] would
    raise at line 173 (caught at line 213) unless it had returned
    before, which for a defined result is the branch of line 168.
    [valueNode] has the parent of the node found, hence its chain. *)
Definition provideDefinition (ed : Editor) (document : TextDocument)
  (position : Position) : option Location :=
  match parseTree (host ed) (getText document) with
  | None => None
  | Some tree =>
      match findNodeAtOffset ed tree (offsetAt ed document position) with
      | None => None
      | Some n =>
          if negb (NodeType_eqb (type (node n)) NString) then None
          else
            match parent n with
            | None => None
            | Some par =>
                if negb (NodeType_eqb (type (node par)) NProperty) then None
                else
                  match child 0 (node par) with
                  | None => None
                  | Some keyNode =>
                      if negb (NodeType_eqb (type keyNode) NString) then None
                      else
                        match child 1 (node par) with
                        | None => None
                        | Some valueNode =>
                            if negb (NodeType_eqb (type valueNode) NString)
                            then None
                            else
                              let pathNode := mkLocated valueNode (ancestors n) in
                              if value_is (value keyNode) (js"file") then
                                match value valueNode with
                                | Some (JString v) =>
                                    resolveFileDefinition (host ed) v
                                | _ => None
                                end
                              else if value_is (value keyNode) (js"path") then
                                match value valueNode with
                                | Some (JString v) =>
                                    match resolvePathDefinition (host ed)
                                            pathNode v with
                                    | Normal result => result
                                    | Throw => None
                                    end
                                | _ =>
                                    match resolvePathTarget (host ed) pathNode with
                                    | Unparsed targetUri =>
                                        Some (Location_at targetUri
                                                (mkPosition 0 0))
                                    | _ => None
                                    end
                                end
                              else None
                        end
                  end
            end
      end
  end.

(** [new vscode.Hover(md)] with [md] a [MarkdownString]. *)
Record Hover := mkHover {
  markdown : JS.jsstring;
  isTrusted : bool
}.

(** The template literal of line 55. *)
Definition missing_mod_text (domain args : JS.jsstring) : JS.jsstring :=
  js"Mod '" ++ domain ++ js"' not found in workspace. " ++ [10%N; 10%N]
  ++ js"[Download Mod](command:vs-mod-navigator.downloadMod?" ++ args ++ js")".

(** [value.includes(':')] *)
Definition includes (s : JS.jsstring) (c : N) : bool := existsb (N.eqb c) s.

(** [provideHover] (lines 33-62). *)
Definition provideHover (ed : Editor) (document : TextDocument)
  (position : Position) : option Hover :=
  match parseTree (host ed) (getText document) with
  | None => None
  | Some tree =>
      match findNodeAtOffset ed tree (offsetAt ed document position) with
      | None => None
      | Some n =>
          if negb (NodeType_eqb (type (node n)) NString) then None
          else
            match value (node n) with
            | Some (JString v) =>
                if includes v 58 then
                  match JS.split 58 v with
                  | [domain; _] =>
                      if checkDomainExists (host ed) domain then None
                      else Some (mkHover
                                   (missing_mod_text domain (commandArgs ed domain))
                                   true)
                  | _ => None
                  end
                else None
            | _ => None
            end
      end
  end.

(* ================================================================== *)
(** ** Notions used in the further properties *)

(** [d] is [n] or lies below it through [children] fields. *)
Inductive subnode : Node -> Node -> Prop :=
| subnode_refl (n : Node) : subnode n n
| subnode_child (n c d : Node) (cs : list Node) :
    children n = Some cs -> In c cs -> subnode c d -> subnode n d.

(** Text after the digits that would change the reading: a further
    digit, or the [x] of a [0x] prefix. *)
Definition continues_number (ds rest : JS.jsstring) : bool :=
  match rest with
  | c :: _ =>
      is_decimal_digit c
      || (JS.eqb ds (js"0") && (N.eqb c 120 || N.eqb c 88))
  | [] => false
  end.

(** The clicked node, its property and the two children of it that
    [provideDefinition] reads. *)
Definition clicked_property (ed : Editor) (document : TextDocument)
  (position : Position) (n : Located) (keyNode valueNode : Node) : Prop :=
  exists tree par,
    parseTree (host ed) (getText document) = Some tree /\
    findNodeAtOffset ed tree (offsetAt ed document position) = Some n /\
    type (node n) = NString /\
    parent n = Some par /\
    type (node par) = NProperty /\
    child 0 (node par) = Some keyNode /\ type keyNode = NString /\
    child 1 (node par) = Some valueNode /\ type valueNode = NString.

(** The same host with another list of open folders. *)
Definition with_folders (h : Host) (folders : list WorkspaceFolder) : Host :=
  mkHost (path_join h) (existsSync h) (readDirectory h) (Some folders)
    (openTextDocument h) (parseTree h).

(** The same host where a directory that cannot be listed is listed as
    empty. *)
Definition with_empty_listings (h : Host) : Host :=
  mkHost (path_join h) (existsSync h)
    (fun u => match readDirectory h u with
              | Some entries => Some entries
              | None => Some []
              end)
    (workspaceFolders h) (openTextDocument h) (parseTree h).

(** On this disk, whatever exists under [assets/<domain>/<relativePath>]
    of a directory has that directory's [assets/<domain>] existing too. *)
Definition assets_closed (h : Host) (domain relativePath : JS.jsstring) : Prop :=
  forall dir : list JS.jsstring,
    existsSync h (path_join h (dir ++ [js"assets"; domain; relativePath])) = true ->
    existsSync h (path_join h (dir ++ [js"assets"; domain])) = true.

(* ================================================================== *)
(** ** A request document for the providers *)

Definition quoted (s : JS.jsstring) : JS.jsstring := 34%N :: s ++ [34%N].

(** The text [{"file": "foo:a.json", "path": "5"}] of [request_tree]. *)
Definition request_text : JS.jsstring :=
  js"{" ++ quoted (js"file") ++ js": " ++ quoted (js"foo:a.json") ++ js", "
  ++ quoted (js"path") ++ js": " ++ quoted (js"5") ++ js"}".

Definition request_file_key : Located :=
  mkLocated (str_node (js"file") 1 6) [request_file; request_tree].
Definition request_file_value : Located :=
  mkLocated (str_node (js"foo:a.json") 9 12) [request_file; request_tree].
Definition request_path_key : Located :=
  mkLocated (str_node (js"path") 23 6) [request_path; request_tree].

(** The answers of [findNodeAtOffset] inside the four strings of the
    request document. *)
Definition request_find (tree : Node) (o : Z) : option Located :=
  find (fun l => (offset (node l) <=? o)%Z
                 && (o <? offset (node l) + length (node l))%Z)
    [request_file_key; request_file_value; request_path_key; request_node].

(** The request document open in an editor whose workspace is that of
    [h]; positions are columns of line 0. *)
Definition request_editor (h : Host) : Editor :=
  mkEditor
    (mkHost (path_join h) (existsSync h) (readDirectory h) (workspaceFolders h)
       (openTextDocument h)
       (fun text => if JS.eqb text request_text then Some request_tree
                    else parseTree h text))
    request_find
    (fun _ p => character p)
    (fun domain => js"%5B%22" ++ domain ++ js"%22%5D").

Definition request_document : TextDocument := one_line_document request_text.

(* ================================================================== *)
(** ** [modDownloader.ts] and the download command *)

Module Downloader.

(** A JavaScript number, given by what the code can observe of it: its
    truthiness and the text [ToString] renders. *)
Record Number := mkNumber {
  nonzero : bool;
  shown : JS.jsstring
}.

(** Values typed [any]: what [JSON.parse] returns, and [undefined] for
    a property that is not there. *)
#[warnings="-register-all"]
Inductive Any :=
| Undefined
| Null
| Bool (b : bool)
| Num (x : Number)
| Str (s : JS.jsstring)
| Arr (items : list Any)
| Obj (fields : list (JS.jsstring * Any)).

(** The own property [key] of a parsed object; of two members with one
    name [JSON.parse] keeps the later. *)
Fixpoint own (fields : list (JS.jsstring * Any)) (key : JS.jsstring)
  : option Any :=
  match fields with
  | [] => None
  | (k, v) :: rest =>
      match own rest key with
      | Some later => Some later
      | None => if JS.eqb k key then Some v else None
      end
  end.

(** [v.key] on a value that is neither [null] nor [undefined].  The
    names the downloader reads ([mod], [releases], [mainfile],
    [filename], [name]) are defined on no prototype of a parsed value,
    so only own properties of objects count. *)
Definition get (v : Any) (key : JS.jsstring) : Any :=
  match v with
  | Obj fields =>
      match own fields key with
      | Some x => x
      | None => Undefined
      end
  | _ => Undefined
  end.

(** [!!v] *)
Definition truthy (v : Any) : bool :=
  match v with
  | Undefined | Null => false
  | Bool b => b
  | Num x => nonzero x
  | Str s => negb (Nat.eqb (List.length s) 0)
  | Arr _ | Obj _ => true
  end.

(** The [TypeError]s the engine itself can raise in this code. *)
Inductive TypeErrorKind :=
| ReadOfNull (key : JS.jsstring)
| ToPrimitive
| PathArgument.

(** A thrown value: an [Error] with the text that [${error.message}]
    renders, or a [TypeError] of the engine. *)
Inductive Thrown :=
| Error (message : JS.jsstring)
| TypeError (kind : TypeErrorKind).

Inductive Outcome (A : Type) :=
| Ok (a : A)
| Raise (e : Thrown).
Arguments Ok {A} a.
Arguments Raise {A} e.

(** [v.key] where [v] may be [null] or [undefined]. *)
Definition read (v : Any) (key : JS.jsstring) : Outcome Any :=
  match v with
  | Undefined | Null => Raise (TypeError (ReadOfNull key))
  | _ => Ok (get v key)
  end.

(** [ToString(v)], as a template literal applies it.  An array joins
    its elements with commas, [null] and [undefined] elements being
    empty; a parsed object is [[object Object]] unless it has an own
    member [toString], which is not callable and makes the conversion
    raise. *)
Fixpoint toString (v : Any) : Outcome JS.jsstring :=
  match v with
  | Undefined => Ok (js"undefined")
  | Null => Ok (js"null")
  | Bool true => Ok (js"true")
  | Bool false => Ok (js"false")
  | Num x => Ok (shown x)
  | Str s => Ok s
  | Arr items =>
      (fix join (l : list Any) : Outcome JS.jsstring :=
         match l with
         | [] => Ok []
         | x :: rest =>
             match (match x with
                    | Undefined | Null => Ok []
                    | _ => toString x
                    end) with
             | Raise e => Raise e
             | Ok first =>
                 match rest with
                 | [] => Ok first
                 | _ :: _ =>
                     match join rest with
                     | Raise e => Raise e
                     | Ok others => Ok (first ++ js"," ++ others)
                     end
                 end
             end
         end) items
  | Obj fields =>
      match own fields (js"toString") with
      | Some _ => Raise (TypeError ToPrimitive)
      | None => Ok (js"[object Object]")
      end
  end.

(** What the user and the system see of a run, in order. *)
Inductive Event :=
| Exec (command : JS.jsstring)
| Exists (path : JS.jsstring)
| Read (path : JS.jsstring)
| Unlink (path : JS.jsstring)
| Mkdir (path : JS.jsstring)
| OpenZip (path : JS.jsstring)
| Extract (zip target : JS.jsstring)
| Progress (title : JS.jsstring)
| InputBox
| ErrorMessage (text : JS.jsstring)
| InformationMessage (text : JS.jsstring).

(** The environment: Node's [path], [os], [fs] and [child_process],
    [adm-zip] and the editor window, as operations on a state [S] of
    the outside world.  An operation that can throw returns the thrown
    value; [exec] returns the [error] given to its callback. *)
Record Env (S : Type) := mkEnv {
  win32 : bool;
  tmpdir : JS.jsstring;
  join : list JS.jsstring -> JS.jsstring;
  basename : JS.jsstring -> JS.jsstring -> JS.jsstring;
  engine_message : TypeErrorKind -> JS.jsstring;
  JSON_parse : JS.jsstring -> Outcome Any;
  now : S -> JS.jsstring * S;
  exec : JS.jsstring -> S -> option Thrown * S;
  existsSync : JS.jsstring -> S -> bool * S;
  readFileSync : JS.jsstring -> S -> Outcome JS.jsstring * S;
  unlinkSync : JS.jsstring -> S -> option Thrown * S;
  mkdirSync : JS.jsstring -> S -> option Thrown * S;
  AdmZip : JS.jsstring -> S -> option Thrown * S;
  extractAllTo : JS.jsstring -> JS.jsstring -> S -> option Thrown * S;
  showInputBox : S -> option JS.jsstring * S;
  workspaceFolders : option (list WorkspaceFolder)
}.
Arguments win32 {S}.
Arguments tmpdir {S}.
Arguments join {S}.
Arguments basename {S}.
Arguments engine_message {S}.
Arguments JSON_parse {S}.
Arguments now {S}.
Arguments exec {S}.
Arguments existsSync {S}.
Arguments readFileSync {S}.
Arguments unlinkSync {S}.
Arguments mkdirSync {S}.
Arguments AdmZip {S}.
Arguments extractAllTo {S}.
Arguments showInputBox {S}.
Arguments workspaceFolders {S}.

Section Run.

Variable S : Type.
Variable env : Env S.

(** A computation: from a state of the world to an outcome, the new
    state and the events it caused. *)
Definition M (A : Type) : Type := S -> (Outcome A * S) * list Event.

Definition ret {A : Type} (a : A) : M A := fun s => ((Ok a, s), []).

Definition raise {A : Type} (e : Thrown) : M A := fun s => ((Raise e, s), []).

Definition bind {A B : Type} (m : M A) (f : A -> M B) : M B :=
  fun s =>
    match m s with
    | ((Ok a, s'), t) =>
        match f a s' with
        | (r, t') => (r, t ++ t')
        end
    | ((Raise e, s'), t) => ((Raise e, s'), t)
    end.

Local Notation "x <- m ;; k" := (bind m (fun x => k))
  (at level 61, m at next level, right associativity).
Local Notation "m ;; k" := (bind m (fun _ => k))
  (at level 61, right associativity).

(** [try { m } catch (e) { handler e }] *)
Definition catch {A : Type} (m : M A) (handler : Thrown -> M A) : M A :=
  fun s =>
    match m s with
    | ((Raise e, s'), t) =>
        match handler e s' with
        | (r, t') => (r, t ++ t')
        end
    | done => done
    end.

(** [try { m } catch (e) {}] *)
Definition swallow {A : Type} (m : M A) : M unit :=
  fun s =>
    match m s with
    | ((_, s'), t) => ((Ok tt, s'), t)
    end.

Definition emit (e : Event) : M unit := fun s => ((Ok tt, s), [e]).

(** A call of the environment that returns. *)
Definition call {R : Type} (op : S -> R * S) (e : Event) : M R :=
  fun s => match op s with (r, s') => ((Ok r, s'), [e]) end.

(** A call of the environment that returns or throws. *)
Definition attempt {R : Type} (op : S -> Outcome R * S) (e : Event) : M R :=
  fun s => match op s with (r, s') => ((r, s'), [e]) end.

Definition perform (op : S -> option Thrown * S) (e : Event) : M unit :=
  fun s =>
    match op s with
    | (Some thrown, s') => ((Raise thrown, s'), [e])
    | (None, s') => ((Ok tt, s'), [e])
    end.

Definition lift {A : Type} (o : Outcome A) : M A := fun s => ((o, s), []).

(** [${error.message}] *)
Definition message (e : Thrown) : JS.jsstring :=
  match e with
  | Error text => text
  | TypeError kind => engine_message env kind
  end.

Definition API_BASE_URL : JS.jsstring := js"https://mods.vintagestory.at/api/mod/".

(** The command line of [fetchJson] (lines 93-95). *)
Definition fetch_command (tempFile url : JS.jsstring) : JS.jsstring :=
  if win32 env
  then js"curl.exe -v --http1.1 --ssl-no-revoke -s -o " ++ quoted tempFile
       ++ js" " ++ quoted url
  else js"curl -v --http1.1 -s -o " ++ quoted tempFile ++ js" " ++ quoted url.

(** The command line of [downloadFile] (lines 135-137). *)
Definition download_command (destPath url : JS.jsstring) : JS.jsstring :=
  if win32 env
  then js"curl.exe -L -v --http1.1 --ssl-no-revoke -o " ++ quoted destPath
       ++ js" " ++ quoted url
  else js"curl -L -v --http1.1 -o " ++ quoted destPath ++ js" " ++ quoted url.

(** [fetchJson] (lines 87-128); the promise it returns is the
    computation, rejected when it raises.  [Date.now()] is read from
    the world without an event. *)
Definition fetchJson (url : JS.jsstring) : M Any :=
  stamp <- (fun s => match now env s with (stamp, s') => ((Ok stamp, s'), []) end) ;;
  let tempFile :=
    join env [tmpdir env; js"vsmod_info_" ++ stamp ++ js".json"] in
  let command := fetch_command tempFile url in
  error <- call (exec env command) (Exec command) ;;
  match error with
  | Some e => raise e
  | None =>
      present <- call (existsSync env tempFile) (Exists tempFile) ;;
      if present then
        catch
          (fileContent <- attempt (readFileSync env tempFile) (Read tempFile) ;;
           data <- lift (JSON_parse env fileContent) ;;
           swallow (perform (unlinkSync env tempFile) (Unlink tempFile)) ;;
           ret data)
          (fun e =>
             swallow (attempt (readFileSync env tempFile) (Read tempFile)) ;;
             raise e)
      else raise (Error (js"Output file was not created by curl."))
  end.

(** [fetchModInfo] (lines 83-85). *)
Definition fetchModInfo (modId : JS.jsstring) : M Any :=
  fetchJson (API_BASE_URL ++ modId).

(** [downloadFile] (lines 130-157). *)
Definition downloadFile (url destPath : JS.jsstring) : M unit :=
  let command := download_command destPath url in
  error <- call (exec env command) (Exec command) ;;
  match error with
  | Some e =>
      present <- call (existsSync env destPath) (Exists destPath) ;;
      (if present
       then swallow (perform (unlinkSync env destPath) (Unlink destPath))
       else ret tt) ;;
      raise e
  | None =>
      present <- call (existsSync env destPath) (Exists destPath) ;;
      if present then ret tt
      else raise (Error (js"Download file was not created by curl."))
  end.

(** [modInfo?.mod?.releases] (line 22). *)
Definition releases_of (modInfo : Any) : Any :=
  match modInfo with
  | Undefined | Null => Undefined
  | _ =>
      match get modInfo (js"mod") with
      | Undefined | Null => Undefined
      | modValue => get modValue (js"releases")
      end
  end.

(** The test of line 24, negated: the releases of a usable mod info. *)
Definition usable_releases (modInfo : Any) : option (Any * list Any) :=
  if truthy modInfo && truthy (get modInfo (js"mod"))
  then
    match releases_of modInfo with
    | Arr (latestRelease :: others) => Some (latestRelease, others)
    | _ => None
    end
  else None.

(** [modInfo.mod.name || modId] *)
Definition display_name (modInfo : Any) (modId : JS.jsstring) : Any :=
  let name := get (get modInfo (js"mod")) (js"name") in
  if truthy name then name else Str modId.

(** Lines 15-74 of [downloadMod]: what happens once the mod info has
    arrived.  The [console.log] of line 40 converts [downloadUrl] to a
    string and can raise; [path.join] raises on a [filename] that is
    not a string. *)
Definition install (modId : JS.jsstring) (workspaceFolder : WorkspaceFolder)
  (modInfo : Any) : M bool :=
  match usable_releases modInfo with
  | None =>
      emit (ErrorMessage
              (js"Mod '" ++ modId ++ js"' not found or has no releases.")) ;;
      ret false
  | Some (latestRelease, _) =>
      downloadUrl <- lift (read latestRelease (js"mainfile")) ;;
      let fileName := get latestRelease (js"filename") in
      if negb (truthy downloadUrl) then
        emit (ErrorMessage
                (js"No download URL found for mod '" ++ modId ++ js"'.")) ;;
        ret false
      else
        url <- lift (toString downloadUrl) ;;
        fileName <- lift (match fileName with
                          | Str name => Ok name
                          | _ => Raise (TypeError PathArgument)
                          end) ;;
        let root := fsPath (folder_uri workspaceFolder) in
        let downloadPath := join env [root; fileName] in
        title <- lift (toString (display_name modInfo modId)) ;;
        emit (Progress (js"Downloading " ++ title ++ js"...")) ;;
        downloadFile url downloadPath ;;
        emit (Progress (js"Unzipping " ++ fileName ++ js"...")) ;;
        perform (AdmZip env downloadPath) (OpenZip downloadPath) ;;
        let extractFolderName := basename env fileName (js".zip") in
        let extractPath := join env [root; extractFolderName] in
        present <- call (existsSync env extractPath) (Exists extractPath) ;;
        (if present then ret tt
         else perform (mkdirSync env extractPath) (Mkdir extractPath)) ;;
        perform (extractAllTo env downloadPath extractPath)
          (Extract downloadPath extractPath) ;;
        perform (unlinkSync env downloadPath) (Unlink downloadPath) ;;
        emit (InformationMessage
                (js"Successfully downloaded and installed " ++ title ++ js".")) ;;
        ret true
  end.

(** [downloadMod] (lines 10-81): everything runs inside [try]; whatever
    is thrown ends in one error message and [false]. *)
Definition downloadMod (modId : JS.jsstring) (workspaceFolder : WorkspaceFolder)
  : S -> (bool * S) * list Event :=
  fun s =>
    match bind (fetchModInfo modId) (install modId workspaceFolder) s with
    | ((Ok result, s'), t) => ((result, s'), t)
    | ((Raise error, s'), t) =>
        ((false, s'),
         t ++ [ErrorMessage (js"Failed to download mod '" ++ modId ++ js"': "
                             ++ message error)])
    end.

(** The handler of the command [vs-mod-navigator.downloadMod]
    ([extension.ts], lines 11-27). *)
Definition downloadCommand (modId : option JS.jsstring)
  : S -> S * list Event :=
  fun s =>
    let given := match modId with
                 | Some (c :: rest) => Some (c :: rest)
                 | _ => None
                 end in
    let '(asked, s1, t1) :=
      match given with
      | Some id => (Some id, s, [])
      | None => match showInputBox env s with
                | (answer, s') => (answer, s', [InputBox])
                end
      end in
    match asked with
    | Some (c :: rest) =>
        match workspaceFolders env with
        | Some (workspaceFolder :: _) =>
            match downloadMod (c :: rest) workspaceFolder s1 with
            | ((_, s2), t2) => (s2, t1 ++ t2)
            end
        | _ => (s1, t1 ++ [ErrorMessage (js"No workspace folder open.")])
        end
    | _ => (s1, t1)
    end.

(** The events of a successful [fetchJson]: the command, the test for
    the temporary file, its reading and its removal. *)
Definition fetched (stamp url : JS.jsstring) : list Event :=
  let tempFile := join env [tmpdir env; js"vsmod_info_" ++ stamp ++ js".json"] in
  [Exec (fetch_command tempFile url); Exists tempFile; Read tempFile;
   Unlink tempFile].


(** The temporary file of [fetchJson] (line 90). *)
Definition temp_file (stamp : JS.jsstring) : JS.jsstring :=
  join env [tmpdir env; js"vsmod_info_" ++ stamp ++ js".json"].

(** Every step of [fetchJson] works, from state [s] to state [s']:
    [curl] reports no error, the temporary file exists, is read, and
    its content parses to [data].  The removal of the temporary file is
    attempted; whether it throws ([removal]) is ignored. *)
Definition fetch_works (url : JS.jsstring) (s : S) (stamp : JS.jsstring)
  (data : Any) (s' : S) : Prop :=
  exists s1 s2 s3 s4 content removal,
    now env s = (stamp, s1) /\
    exec env (fetch_command (temp_file stamp) url) s1 = (None, s2) /\
    existsSync env (temp_file stamp) s2 = (true, s3) /\
    readFileSync env (temp_file stamp) s3 = (Ok content, s4) /\
    JSON_parse env content = Ok data /\
    unlinkSync env (temp_file stamp) s4 = (removal, s').


End Run.

End Downloader.

(** A world in which everything works: the registry answers with one
    release of the mod [rust], archive [rust_1.0.zip]. *)
Definition rust_release : Downloader.Any :=
  Downloader.Obj
    [(js"mainfile", Downloader.Str (js"https://cdn.example/rust_1.0.zip"));
     (js"filename", Downloader.Str (js"rust_1.0.zip"))].

Definition rust_info : Downloader.Any :=
  Downloader.Obj
    [(js"statuscode", Downloader.Str (js"200"));
     (js"mod",
      Downloader.Obj
        [(js"name", Downloader.Str (js"Rust"));
         (js"releases", Downloader.Arr [rust_release])])].

(** [path.basename(name, ext)] for a plain file name: the name without
    the extension when it ends with it and is longer. *)
Definition plain_basename (name ext : JS.jsstring) : JS.jsstring :=
  if JS.startsWith (rev name) (rev ext)
     && Nat.ltb (List.length ext) (List.length name)
  then firstn (List.length name - List.length ext) name
  else name.

Definition working_env : Downloader.Env unit :=
  Downloader.mkEnv unit false (js"/tmp") posix_join plain_basename
    (fun _ => js"TypeError")
    (fun _ => Downloader.Ok rust_info)
    (fun s => (js"1700000000000", s))
    (fun _ s => (None, s))
    (fun path s => (negb (JS.eqb path (js"/ws/rust_1.0")), s))
    (fun _ s => (Downloader.Ok (js"{}"), s))
    (fun _ s => (None, s))
    (fun _ s => (None, s))
    (fun _ s => (None, s))
    (fun _ _ s => (None, s))
    (fun s => (Some (js"rust"), s))
    (Some [mkWorkspaceFolder (js"ws") (file (js"/ws"))]).

(** Messages shown to the user. *)
Definition is_notification (e : Downloader.Event) : bool :=
  match e with
  | Downloader.ErrorMessage _ | Downloader.InformationMessage _ => true
  | _ => false
  end.

Definition is_information (e : Downloader.Event) : bool :=
  match e with
  | Downloader.InformationMessage _ => true
  | _ => false
  end.

Definition is_unlink (e : Downloader.Event) : bool :=
  match e with
  | Downloader.Unlink _ => true
  | _ => false
  end.

(** A computation none of whose events satisfies [p]. *)
Definition avoids {S A : Type} (p : Downloader.Event -> bool)
  (m : Downloader.M S A) : Prop :=
  forall s, filter p (snd (m s)) = [].

(** A computation that shows exactly one message when it returns, an
    information message exactly when it returns [true], and none when
    it raises. *)
Definition announces {S : Type} (m : Downloader.M S bool) : Prop :=
  forall s,
    match m s with
    | ((Downloader.Ok b, _), t) =>
        exists msg, filter is_notification t = [msg] /\
                    (b = true <-> is_information msg = true)
    | ((Downloader.Raise _, _), t) => filter is_notification t = []
    end.

(* ================================================================== *)
(** ** Properties *)

(** *** Strings *)

Lemma eqb_eq (a b : JS.jsstring) : JS.eqb a b = true <-> a = b.
Proof.
  revert b; induction a as [|x a IH]; intros [|y b]; simpl;
    try (split; [discriminate | discriminate]); try tauto.
  rewrite andb_true_iff, N.eqb_eq, IH.
  split; [intros [-> ->]; reflexivity | intros E; inversion E; auto].
Qed.

Lemma eqb_refl (a : JS.jsstring) : JS.eqb a a = true.
Proof. apply eqb_eq; reflexivity. Qed.

(** [split] yields one part more than there are separators. *)
Lemma split_length (sep : N) (s : JS.jsstring) :
  List.length (JS.split sep s) = S (JS.count sep s).
Proof.
  unfold JS.count; induction s as [|c s IH]; simpl; [reflexivity|].
  rewrite (N.eqb_sym sep c).
  destruct (N.eqb c sep); simpl.
  - now rewrite IH.
  - destruct (JS.split sep s) as [|part parts]; simpl in *; [discriminate | assumption].
Qed.

(** *** The pointer loop *)

Lemma walkPointer_absent (parts : list JS.jsstring) :
  fold_left
    (fun currentNode part =>
       match currentNode with
       | Some n => walk_step n part
       | None => None
       end) parts None = None.
Proof. induction parts; simpl; auto. Qed.

Lemma walkPointer_cons (tree : Node) (part : JS.jsstring) (parts : list JS.jsstring) :
  walkPointer tree (part :: parts) =
  match walk_step tree part with
  | Some n => walkPointer n parts
  | None => None
  end.
Proof.
  unfold walkPointer; simpl.
  destruct (walk_step tree part); [reflexivity | apply walkPointer_absent].
Qed.

Lemma walkPointer_app (tree : Node) (before after : list JS.jsstring) :
  walkPointer tree (before ++ after) =
  match walkPointer tree before with
  | Some n => walkPointer n after
  | None => None
  end.
Proof.
  revert tree; induction before as [|part before IH]; intros tree.
  - reflexivity.
  - simpl app. rewrite !walkPointer_cons.
    destruct (walk_step tree part); [apply IH | reflexivity].
Qed.

(** *** Property lookup *)

Lemma find_first {A : Type} (f : A -> bool) (before : list A) (x : A) (after : list A) :
  f x = true ->
  (forall y, In y before -> f y = false) ->
  find f (before ++ x :: after) = Some x.
Proof.
  intros Hx; induction before as [|y before IH]; intros Hb; simpl.
  - now rewrite Hx.
  - rewrite (Hb y (or_introl eq_refl)). apply IH.
    intros z Hz; apply Hb; now right.
Qed.

Lemma find_split {A : Type} (f : A -> bool) (l : list A) (x : A) :
  find f l = Some x ->
  exists before after,
    l = before ++ x :: after /\ f x = true /\
    forall y, In y before -> f y = false.
Proof.
  induction l as [|y l IH]; simpl; [discriminate|].
  destruct (f y) eqn:Hy.
  - intros E; inversion E; subst. exists [], l. repeat split; auto.
    intros ? [].
  - intros E. destruct (IH E) as (b & a & -> & Hx & Hb).
    exists (y :: b), a. repeat split; auto.
    intros z [<- | Hz]; auto.
Qed.

Lemma find_exists {A : Type} (f : A -> bool) (l : list A) (x : A) :
  In x l -> f x = true -> exists y, find f l = Some y.
Proof.
  intros Hin Hx. destruct (find f l) eqn:E; [eauto|].
  now rewrite (find_none f l E x Hin) in Hx.
Qed.

Lemma has_key_inv (key : JS.jsstring) (p : Node) :
  has_key key p = true ->
  type p = NProperty /\
  exists keyNode rest,
    children p = Some (keyNode :: rest) /\
    value keyNode = Some (JString key).
Proof.
  unfold has_key, value_is.
  destruct (type p); try (destruct (children p) as [[|? ?]|]; discriminate).
  destruct (children p) as [[|k rest]|]; try discriminate.
  destruct (value k) as [[s| | |]|] eqn:Hv; try discriminate.
  intros E; apply eqb_eq in E; subst. split; [reflexivity | eauto].
Qed.

Lemma has_key_intro (key : JS.jsstring) (p keyNode : Node) (rest : list Node) :
  type p = NProperty ->
  children p = Some (keyNode :: rest) ->
  value keyNode = Some (JString key) ->
  has_key key p = true.
Proof.
  intros Ht Hc Hv. unfold has_key, value_is.
  rewrite Ht, Hc, Hv. apply eqb_refl.
Qed.

(** The object branch of the loop: the key node of the property found. *)
Lemma walk_step_object (obj p : Node) (seg : JS.jsstring) :
  type obj = NObject ->
  findProperty obj seg = Some p ->
  has_key seg p = true ->
  walk_step obj seg = child 0 p /\ exists keyNode, child 0 p = Some keyNode.
Proof.
  intros Ht Hf Hk. unfold walk_step. rewrite Ht, Hf.
  destruct (has_key_inv _ _ Hk) as (_ & k & rest & Hc & _).
  unfold child. rewrite Hc. simpl. eauto.
Qed.

(** *** Folder names *)

Lemma startsWith_iff (s prefix : JS.jsstring) :
  JS.startsWith s prefix = true <-> exists rest, s = prefix ++ rest.
Proof.
  revert s; induction prefix as [|p prefix IH]; intros s; simpl.
  - split; [eauto | reflexivity].
  - destruct s as [|c s].
    + split; [discriminate | intros [rest E]; discriminate].
    + rewrite andb_true_iff, N.eqb_eq, IH. split.
      * intros [-> [rest ->]]. eauto.
      * intros [rest E]. inversion E; subst. eauto.
Qed.

Lemma isMatchingFolder_iff (domain name : JS.jsstring) :
  isMatchingFolder domain name = true <-> matches_domain_pattern domain name.
Proof.
  unfold isMatchingFolder, matches_domain_pattern.
  rewrite !orb_true_iff, eqb_eq, !startsWith_iff. split.
  - intros [[E | [rest E]] | [rest E]]; [now left | right; exists rest ..].
    + left. now rewrite E, <- app_assoc.
    + right. now rewrite E, <- app_assoc.
  - intros [E | [rest [E | E]]]; [now left; left | left; right | right];
      exists rest; now rewrite E, <- app_assoc.
Qed.

(** *** Domain existence check *)

Lemma exists_children_iff (h : Host) (domain : JS.jsstring)
  (folder : WorkspaceFolder) (entries : list (JS.jsstring * FileType)) :
  exists_children h domain folder entries = true <->
  exists sub,
    In (sub, Directory) entries /\
    isMatchingFolder domain sub = true /\
    existsSync h (path_join h [fsPath (folder_uri folder); sub; js"assets"; domain])
    = true.
Proof.
  induction entries as [|[nm ty] entries IH]; simpl.
  - split; [discriminate | intros (? & [] & _)].
  - destruct (N.eqb ty Directory && isMatchingFolder domain nm) eqn:G.
    + apply andb_true_iff in G as [Gt Gm]. apply N.eqb_eq in Gt. subst ty.
      destruct (existsSync h _) eqn:E.
      * split; [intros _; exists nm; auto | reflexivity].
      * rewrite IH. split.
        -- intros (sub & Hin & Hm & He). exists sub; auto.
        -- intros (sub & [Heq | Hin] & Hm & He); [|exists sub; auto].
           inversion Heq; subst. congruence.
    + rewrite IH. split.
      * intros (sub & Hin & Hm & He). exists sub; auto.
      * intros (sub & [Heq | Hin] & Hm & He); [|exists sub; auto].
        inversion Heq; subst. rewrite N.eqb_refl, Hm in G. discriminate.
Qed.

Lemma exists_folders_iff (h : Host) (domain : JS.jsstring)
  (folders : list WorkspaceFolder) :
  exists_folders h domain folders = true <->
  exists folder, In folder folders /\ folder_holds_domain h domain folder.
Proof.
  unfold folder_holds_domain.
  induction folders as [|f folders IH]; simpl.
  - split; [discriminate | intros (? & [] & _)].
  - destruct (isMatchingFolder domain (name f)
              && existsSync h (path_join h [fsPath (folder_uri f); js"assets"; domain]))
      eqn:G.
    + apply andb_true_iff in G as [Gm Ge]. apply isMatchingFolder_iff in Gm.
      split; [intros _; exists f; auto | reflexivity].
    + assert (Hown : ~ (matches_domain_pattern domain (name f) /\
                        existsSync h (path_join h [fsPath (folder_uri f); js"assets"; domain])
                        = true)).
      { intros [Hm He]. apply isMatchingFolder_iff in Hm.
        rewrite Hm, He in G. discriminate. }
      destruct (readDirectory h (folder_uri f)) as [entries|] eqn:R.
      * destruct (exists_children h domain f entries) eqn:C.
        -- apply exists_children_iff in C as (sub & Hin & Hm & He).
           apply isMatchingFolder_iff in Hm.
           split; [intros _ | reflexivity].
           exists f. split; [now left|]. right. exists entries, sub. auto.
        -- rewrite IH. split.
           ++ intros (g & Hin & Hg). exists g; auto.
           ++ intros (g & [<- | Hin] & Hg); [|exists g; auto].
              destruct Hg as [Hg | (entries' & sub & R' & Hin & Hm & He)];
                [contradiction|].
              rewrite R in R'. inversion R'; subst entries'.
              assert (exists_children h domain f entries = true) as C'.
              { apply exists_children_iff. exists sub.
                apply isMatchingFolder_iff in Hm. auto. }
              congruence.
      * rewrite IH. split.
        -- intros (g & Hin & Hg). exists g; auto.
        -- intros (g & [<- | Hin] & Hg); [|exists g; auto].
           destruct Hg as [Hg | (entries' & sub & R' & _)];
             [contradiction | congruence].
Qed.

(** C7: the Domain Existence Check ([checkDomainExists]) answers true
    exactly when some open workspace folder, or some entry of type
    Directory in the listing of one, has a name matching the domain
    pattern (the domain, or the domain followed by [_] or [-]) and
    [assets/<domain>] exists under it.  A matching name alone is not
    enough: for the single folder [foo_1.2.3] without [assets/foo] the
    answer for domain [foo] is false. *)
Theorem checkDomainExists_iff (h : Host) (domain : JS.jsstring) :
  (checkDomainExists h domain = true <->
   exists folders folder,
     workspaceFolders h = Some folders /\ In folder folders /\
     folder_holds_domain h domain folder)
  /\ (isMatchingFolder (js"foo") (js"foo_1.2.3") = true
      /\ checkDomainExists bare_host (js"foo") = false).
Proof.
  split; [|split; reflexivity].
  unfold checkDomainExists.
  destruct (workspaceFolders h) as [folders|].
  - rewrite exists_folders_iff. split.
    + intros (f & Hin & Hf). exists folders, f. auto.
    + intros (folders' & f & E & Hin & Hf). inversion E; subst. eauto.
  - split; [discriminate | intros (? & ? & E & _); discriminate].
Qed.

(** *** Cross-reference tokens *)

(** C8: a token whose number of colons is not exactly one is out of
    scope: [resolveVintageStoryPath] returns absent for it (and so does
    [resolveFileDefinition]); the functions are total, so nothing is
    thrown, and the file system is not consulted. *)
Theorem resolveVintageStoryPath_colon_count (h : Host) (pathStr : JS.jsstring) :
  JS.count 58 pathStr <> 1 ->
  resolveVintageStoryPath h pathStr = None /\
  resolveFileDefinition h pathStr = None.
Proof.
  intros Hc.
  assert (E : resolveVintageStoryPath h pathStr = None).
  { unfold resolveVintageStoryPath.
    pose proof (split_length 58 pathStr) as L.
    destruct (JS.split 58 pathStr) as [|domain [|relativePath [|third rest]]];
      try reflexivity.
    simpl in L. exfalso. apply Hc. now inversion L. }
  split; [exact E|]. unfold resolveFileDefinition. now rewrite E.
Qed.

Lemma resolveVintageStoryPath_colon_count_witness :
  JS.count 58 (js"a:b:c") <> 1 /\
  JS.count 58 (js"nocolon") <> 1 /\
  resolveVintageStoryPath pair_host (js"a:b:c") = None /\
  resolveVintageStoryPath pair_host (js"nocolon") = None.
Proof.
  assert (H2 : JS.count 58 (js"a:b:c") <> 1) by (vm_compute; lia).
  assert (H0 : JS.count 58 (js"nocolon") <> 1) by (vm_compute; lia).
  exact (conj H2 (conj H0 (conj
    (proj1 (resolveVintageStoryPath_colon_count pair_host (js"a:b:c") H2))
    (proj1 (resolveVintageStoryPath_colon_count pair_host (js"nocolon") H0))))).
Defined.

(** *** Duplicate keys *)

Lemma findProperty_first (obj : Node) (key : JS.jsstring)
  (before : list Node) (p : Node) (after : list Node) :
  type obj = NObject ->
  children obj = Some (before ++ p :: after) ->
  has_key key p = true ->
  (forall q, In q before -> has_key key q = false) ->
  findProperty obj key = Some p.
Proof.
  intros Ht Hc Hp Hb. unfold findProperty. rewrite Ht, Hc.
  now apply find_first.
Qed.

Lemma has_key_false (key : JS.jsstring) (q : Node) :
  (forall k r, type q = NProperty -> children q = Some (k :: r) ->
               value k <> Some (JString key)) ->
  has_key key q = false.
Proof.
  intros H. destruct (has_key key q) eqn:E; [|reflexivity].
  destruct (has_key_inv _ _ E) as (Ht & k & r & Hc & Hv).
  exfalso. exact (H k r Ht Hc Hv).
Qed.

(** C10: in an object node, lookup by key ([findProperty]) returns the
    first property whose key node carries that key, in the order of
    the child list, whatever comes after it, further properties with
    the same key included.  Hence an object step of the pointer loop
    lands on the key node of that first property, and
    [resolvePathDefinition] resolves the string of the first [file]
    property: its result is what that string, and no later one,
    leads to. *)
Theorem findProperty_first_duplicate (obj : Node) (key : JS.jsstring)
  (before : list Node) (p keyNode : Node) (rest after : list Node) :
  type obj = NObject ->
  children obj = Some (before ++ p :: after) ->
  type p = NProperty ->
  children p = Some (keyNode :: rest) ->
  value keyNode = Some (JString key) ->
  (forall q k r, In q before -> type q = NProperty ->
                 children q = Some (k :: r) -> value k <> Some (JString key)) ->
  findProperty obj key = Some p /\
  walk_step obj key = Some keyNode /\
  (key = js"file" ->
   forall (h : Host) (n par : Node) (up : list Node) (jsonPointer : JS.jsstring)
          (fileValueNode : Node) (others : list Node) (fileString : JS.jsstring),
     rest = fileValueNode :: others ->
     type fileValueNode = NString ->
     value fileValueNode = Some (JString fileString) ->
     resolvePathDefinition h (mkLocated n (par :: obj :: up)) jsonPointer =
     match resolveVintageStoryPath h fileString with
     | None => Normal None
     | Some targetUri =>
         match openTextDocument h targetUri with
         | None => Normal None
         | Some doc =>
             match parseTree h (getText doc) with
             | None => Normal (Some (Location_at targetUri (mkPosition 0 0)))
             | Some tree =>
                 Normal (Some (locateInTree targetUri doc tree jsonPointer))
             end
         end
     end).
Proof.
  intros Ht Hc Hpt Hpc Hv Hb.
  pose proof (has_key_intro key p keyNode rest Hpt Hpc Hv) as Hp.
  assert (Hb' : forall q, In q before -> has_key key q = false).
  { intros q Hq. apply has_key_false. intros k r. now apply Hb. }
  pose proof (findProperty_first obj key before p after Ht Hc Hp Hb') as Hf.
  split; [exact Hf|]. split.
  - destruct (walk_step_object obj p key Ht Hf Hp) as [-> _].
    unfold child. now rewrite Hpc.
  - intros -> h n par up jsonPointer fv others fs -> Hfvt Hfvv.
    unfold resolvePathDefinition; simpl.
    rewrite Hf, Ht. simpl.
    unfold child. rewrite Hpc. simpl. rewrite Hfvt, Hfvv. reflexivity.
Qed.

Lemma findProperty_first_duplicate_witness :
  findProperty dup_tree (js"a") = Some dup_first /\
  walk_step dup_tree (js"a") = Some (str_node (js"a") 1 3) /\
  resolvePathDefinition pair_host dup_request_node (js"/1") =
  Normal (Some (mkLocation (file (js"/foo/assets/foo/a.json"))
                  (mkRange (mkPosition 0 3) (mkPosition 0 4)))).
Proof.
  assert (Hnone : forall (key : JS.jsstring) (q k : Node) (r : list Node),
             In q [] -> type q = NProperty -> children q = Some (k :: r) ->
             value k <> Some (JString key))
    by (intros key q k r []).
  destruct (findProperty_first_duplicate dup_tree (js"a") [] dup_first
              (str_node (js"a") 1 3) [num_node 1 5 1] [dup_second]
              eq_refl eq_refl eq_refl eq_refl eq_refl (Hnone (js"a")))
    as (Hf & Hw & _).
  destruct (findProperty_first_duplicate dup_request_tree (js"file") []
              dup_request_first (str_node (js"file") 1 6)
              [str_node (js"foo:a.json") 9 12] [dup_request_second; dup_request_path]
              eq_refl eq_refl eq_refl eq_refl eq_refl (Hnone (js"file")))
    as (_ & _ & Hr).
  exact (conj Hf (conj Hw
    (Hr eq_refl pair_host dup_request_path_value dup_request_path []
        (js"/1") (str_node (js"foo:a.json") 9 12) [] (js"foo:a.json")
        eq_refl eq_refl eq_refl))).
Defined.

(** *** Object steps *)

(** C6: when the current node is an object one of whose properties has
    a key equal to the segment, code unit for code unit, the step moves
    to the key node of a property with that key (the first one), never
    to its value node; walking [0/ingredients] in the tree of
    [[{"ingredients": ["a","b"]}]] ends on the node of the key
    ["ingredients"] (offset 2, length 13). *)
Theorem walk_step_key_node (obj : Node) (segment : JS.jsstring)
  (cs : list Node) (p keyNode : Node) (rest : list Node) :
  type obj = NObject ->
  children obj = Some cs ->
  In p cs ->
  type p = NProperty ->
  children p = Some (keyNode :: rest) ->
  value keyNode = Some (JString segment) ->
  (exists p' keyNode',
     findProperty obj segment = Some p' /\
     child 0 p' = Some keyNode' /\
     value keyNode' = Some (JString segment) /\
     walk_step obj segment = Some keyNode')
  /\ walkPointer ingredients_tree (pathParts (js"0/ingredients"))
     = Some ingredients_key.
Proof.
  intros Ht Hc Hin Hpt Hpc Hv. split; [|reflexivity].
  pose proof (has_key_intro segment p keyNode rest Hpt Hpc Hv) as Hk.
  destruct (find_exists (has_key segment) cs p Hin Hk) as [p' Hfind].
  assert (Hf : findProperty obj segment = Some p')
    by (unfold findProperty; now rewrite Ht, Hc).
  pose proof (find_some _ _ Hfind) as [_ Hk'].
  destruct (has_key_inv _ _ Hk') as (_ & k' & rest' & Hc' & Hv').
  assert (Hch : child 0 p' = Some k') by (unfold child; now rewrite Hc').
  exists p', k'.
  split; [exact Hf|]. split; [exact Hch|]. split; [exact Hv'|].
  destruct (walk_step_object obj p' segment Ht Hf Hk') as [-> _].
  exact Hch.
Qed.

Lemma walk_step_key_node_witness :
  exists p' keyNode',
    findProperty dup_tree (js"a") = Some p' /\
    child 0 p' = Some keyNode' /\
    value keyNode' = Some (JString (js"a")) /\
    walk_step dup_tree (js"a") = Some keyNode'.
Proof.
  refine (proj1 (walk_step_key_node dup_tree (js"a") [dup_first; dup_second]
                   dup_second (str_node (js"a") 7 3) [num_node 2 11 1]
                   eq_refl eq_refl _ eq_refl eq_refl eq_refl)).
  simpl; auto.
Defined.

(** *** Failing walks *)

Lemma step_fails_absent (current : Node) (segment : JS.jsstring) :
  step_fails current segment -> walk_step current segment = None.
Proof.
  intros [Ht Hp | index cs Ht Hp Hc Hr | Ht Hf | Ha Ho]; unfold walk_step.
  - now rewrite Ht, Hp.
  - rewrite Ht, Hp, Hc. unfold JS.index.
    destruct (index <? Z.of_nat (List.length cs))%Z eqn:L; [|reflexivity].
    apply Z.ltb_lt in L.
    destruct (index <? 0)%Z eqn:N; [reflexivity|].
    apply Z.ltb_ge in N. lia.
  - now rewrite Ht, Hf.
  - destruct (type current); congruence.
Qed.

Lemma walkPointer_fails_at (tree current : Node) (before after : list JS.jsstring)
  (segment : JS.jsstring) :
  walkPointer tree before = Some current ->
  walk_step current segment = None ->
  walkPointer tree (before ++ segment :: after) = None.
Proof.
  intros Hb Hs. now rewrite walkPointer_app, Hb, walkPointer_cons, Hs.
Qed.

Lemma resolvePathDefinition_reaches (h : Host) (pathNode : Located)
  (targetUri : Uri) (doc : TextDocument) (tree : Node) (jsonPointer : JS.jsstring) :
  reaches_target h pathNode targetUri doc tree ->
  resolvePathDefinition h pathNode jsonPointer =
  Normal (Some (locateInTree targetUri doc tree jsonPointer)).
Proof.
  intros (par & parent & up & fp & fv & fs & Ha & Ht & Hf & Hc & Hs & Hv & Hr & Ho & Hp).
  unfold resolvePathDefinition, jsonc.parent. rewrite Ha. simpl.
  now rewrite Ht, Hf, Hc, Hs, Hv, Hr, Ho, Hp.
Qed.

(** C1 (as the code has it): when the walk fails partway, on an
    unparsable or out-of-range array index, a missing object key or a
    step into a scalar, the loop ends with no current node (it does not
    go back to the root), and the definition provider answers with the
    empty range at line 0, character 0 of the target file, whatever the
    offset and length of the root node are. *)
Theorem failed_walk_top_of_file (tree current : Node)
  (before after : list JS.jsstring) (segment jsonPointer : JS.jsstring) :
  pathParts jsonPointer = before ++ segment :: after ->
  walkPointer tree before = Some current ->
  step_fails current segment ->
  walkPointer tree (pathParts jsonPointer) = None /\
  forall (h : Host) (pathNode : Located) (targetUri : Uri) (doc : TextDocument),
    reaches_target h pathNode targetUri doc tree ->
    resolvePathDefinition h pathNode jsonPointer =
    Normal (Some (Location_at targetUri (mkPosition 0 0))).
Proof.
  intros Hparts Hb Hfail.
  assert (Hw : walkPointer tree (pathParts jsonPointer) = None).
  { rewrite Hparts. eapply walkPointer_fails_at; eauto using step_fails_absent. }
  split; [exact Hw|].
  intros h pathNode targetUri doc Hreach.
  rewrite (resolvePathDefinition_reaches _ _ _ _ _ _ Hreach).
  unfold locateInTree. now rewrite Hw.
Qed.

Lemma pair_host_reaches :
  reaches_target pair_host request_node (file (js"/foo/assets/foo/a.json"))
    (one_line_document (js"[1,2]")) pair_tree.
Proof.
  exists request_path, request_tree, [], request_file,
    (str_node (js"foo:a.json") 9 12), (js"foo:a.json").
  repeat split; reflexivity.
Defined.

Lemma failed_walk_top_of_file_witness :
  walkPointer pair_tree (pathParts (js"5")) = None /\
  resolvePathDefinition pair_host request_node (js"5") =
  Normal (Some (Location_at (file (js"/foo/assets/foo/a.json")) (mkPosition 0 0))).
Proof.
  assert (Hfail : step_fails pair_tree (js"5")).
  { apply (fails_index_out_of_range pair_tree (js"5") 5 [num_node 1 1 1; num_node 2 3 1]);
      try reflexivity.
    right. simpl. lia. }
  destruct (failed_walk_top_of_file pair_tree pair_tree [] [] (js"5") (js"5")
              eq_refl eq_refl Hfail) as [Hw Hr].
  exact (conj Hw (Hr pair_host request_node _ _ pair_host_reaches)).
Defined.

(** C1, as stated, fails: walking [5] in the tree of [[1,2]] does not
    yield the root node, and the location returned for it is the empty
    range (0,0)-(0,0), not the root node's range (0,0)-(0,5). *)
Lemma failed_walk_not_root :
  walkPointer pair_tree (pathParts (js"5")) <> Some pair_tree /\
  node_range (one_line_document (js"[1,2]")) pair_tree
  = mkRange (mkPosition 0 0) (mkPosition 0 5) /\
  exists location,
    resolvePathDefinition pair_host request_node (js"5") = Normal (Some location) /\
    range location = mkRange (mkPosition 0 0) (mkPosition 0 0) /\
    range location <> node_range (one_line_document (js"[1,2]")) pair_tree.
Proof.
  split; [discriminate|]. split; [reflexivity|].
  eexists. split; [reflexivity|]. split; [reflexivity | discriminate].
Qed.

(** *** Silent failures *)

(** C2 (as the code has it): on a [path] property, with no sibling
    [file] property, or with a [file] token that resolves to no
    existing file, or with a target that cannot be opened, no location
    is returned; when the target opens but its text yields no tree, the
    location at line 0, character 0 of the target file is returned. *)
Theorem resolvePathDefinition_failures (h : Host) (pathNode : Located)
  (jsonPointer : JS.jsstring) (par parent : Node) (up : list Node) :
  ancestors pathNode = par :: parent :: up ->
  type parent = NObject ->
  (findProperty parent (js"file") = None ->
   resolvePathDefinition h pathNode jsonPointer = Normal None)
  /\
  (forall fileProperty fileValueNode fileString,
     findProperty parent (js"file") = Some fileProperty ->
     child 1 fileProperty = Some fileValueNode ->
     type fileValueNode = NString ->
     value fileValueNode = Some (JString fileString) ->
     (resolveVintageStoryPath h fileString = None ->
      resolvePathDefinition h pathNode jsonPointer = Normal None)
     /\
     (forall targetUri,
        resolveVintageStoryPath h fileString = Some targetUri ->
        (openTextDocument h targetUri = None ->
         resolvePathDefinition h pathNode jsonPointer = Normal None)
        /\
        (forall doc,
           openTextDocument h targetUri = Some doc ->
           parseTree h (getText doc) = None ->
           resolvePathDefinition h pathNode jsonPointer =
           Normal (Some (Location_at targetUri (mkPosition 0 0)))))).
Proof.
  intros Ha Ht.
  unfold resolvePathDefinition, jsonc.parent. rewrite Ha. simpl. rewrite Ht. simpl.
  split.
  - now intros ->.
  - intros fp fv fs -> -> -> ->. simpl. split.
    + now intros ->.
    + intros targetUri ->. split.
      * now intros ->.
      * now intros doc -> ->.
Qed.

Lemma resolvePathDefinition_failures_witness :
  resolvePathDefinition pair_host orphan_node (js"5") = Normal None /\
  resolvePathDefinition empty_host request_node (js"5") =
  Normal (Some (Location_at (file (js"/foo/assets/foo/a.json")) (mkPosition 0 0))).
Proof.
  split.
  - exact (proj1 (resolvePathDefinition_failures pair_host orphan_node (js"5")
                    orphan_path orphan_tree [] eq_refl eq_refl) eq_refl).
  - destruct (resolvePathDefinition_failures empty_host request_node (js"5")
                request_path request_tree [] eq_refl eq_refl) as [_ H].
    destruct (H request_file (str_node (js"foo:a.json") 9 12) (js"foo:a.json")
                eq_refl eq_refl eq_refl eq_refl) as [_ H'].
    destruct (H' (file (js"/foo/assets/foo/a.json")) eq_refl) as [_ H''].
    exact (H'' (one_line_document []) eq_refl eq_refl).
Defined.

(** C2, as stated, fails: the target [a.json] exists and is empty, so
    its text yields no tree, and yet a location is returned. *)
Lemma unparsable_target_returns_location :
  openTextDocument empty_host (file (js"/foo/assets/foo/a.json"))
  = Some (one_line_document []) /\
  parseTree empty_host (getText (one_line_document [])) = None /\
  resolvePathDefinition empty_host request_node (js"5") =
  Normal (Some (Location_at (file (js"/foo/assets/foo/a.json")) (mkPosition 0 0))) /\
  resolvePathDefinition empty_host request_node (js"5") <> Normal None.
Proof.
  split; [reflexivity|]. split; [reflexivity|]. split; [reflexivity | discriminate].
Qed.

(** *** Object keys cannot be walked through *)

Lemma key_node_is_string (obj p keyNode : Node) (cs : list Node) :
  key_nodes_are_strings obj = true ->
  children obj = Some cs ->
  In p cs ->
  child 0 p = Some keyNode ->
  type keyNode = NString.
Proof.
  unfold key_nodes_are_strings. intros Hk Hc Hin Hch. rewrite Hc in Hk.
  rewrite forallb_forall in Hk. specialize (Hk p Hin). rewrite Hch in Hk.
  destruct (type keyNode); simpl in Hk; congruence.
Qed.

(** C9 (as the code has it): a segment applied to an object node that
    is not the last segment makes the whole walk fail.  If the key is
    missing the step fails at once; if it is found the current node
    becomes the key node, a string, and the next segment falls into
    the scalar branch.  The value of the property plays no role.  The
    provider then answers with the empty range at line 0, character 0
    of the target file, not with the root node. *)
Theorem object_key_is_dead_end (tree obj : Node) (before : list JS.jsstring)
  (segment next : JS.jsstring) (after : list JS.jsstring) :
  walkPointer tree before = Some obj ->
  type obj = NObject ->
  key_nodes_are_strings obj = true ->
  walkPointer tree (before ++ segment :: next :: after) = None /\
  forall (targetUri : Uri) (doc : TextDocument) (jsonPointer : JS.jsstring),
    pathParts jsonPointer = before ++ segment :: next :: after ->
    locateInTree targetUri doc tree jsonPointer =
    Location_at targetUri (mkPosition 0 0).
Proof.
  intros Hb Ht Hk.
  assert (Hw : walkPointer tree (before ++ segment :: next :: after) = None).
  { rewrite walkPointer_app, Hb, walkPointer_cons.
    destruct (walk_step obj segment) as [keyNode|] eqn:Hs; [|reflexivity].
    assert (Hstr : type keyNode = NString).
    { unfold walk_step in Hs. rewrite Ht in Hs.
      destruct (findProperty obj segment) as [p|] eqn:Hf; [|discriminate].
      unfold findProperty in Hf. rewrite Ht in Hf.
      destruct (children obj) as [cs|] eqn:Hc; [|discriminate].
      destruct (find_some _ _ Hf) as [Hin Hkey].
      destruct (has_key_inv _ _ Hkey) as (_ & k & rest & Hpc & _).
      assert (Hch : child 0 p = Some k) by (unfold child; now rewrite Hpc).
      rewrite Hch in Hs. inversion Hs; subst.
      eapply key_node_is_string; eauto. }
    rewrite walkPointer_cons. unfold walk_step. now rewrite Hstr. }
  split; [exact Hw|].
  intros targetUri doc jsonPointer Hparts.
  unfold locateInTree. now rewrite Hparts, Hw.
Qed.

Lemma object_key_is_dead_end_witness :
  walkPointer ingredients_tree (pathParts (js"0/ingredients/0")) = None /\
  locateInTree (file (js"/foo/assets/foo/a.json"))
    (one_line_document (js"[1,2]")) ingredients_tree (js"0/ingredients/0")
  = Location_at (file (js"/foo/assets/foo/a.json")) (mkPosition 0 0).
Proof.
  destruct (object_key_is_dead_end ingredients_tree
              (obj_node 1 26 [prop_node 2 24 ingredients_key ingredients_value])
              [js"0"] (js"ingredients") (js"0") []
              eq_refl eq_refl eq_refl) as [Hw Hl].
  exact (conj Hw (Hl _ _ (js"0/ingredients/0") eq_refl)).
Defined.

(** C9, as stated, fails in its last part: walking [0/ingredients/0]
    in the tree of [[{"ingredients": ["a","b"]}]] does fail, but what
    is returned is the empty range (0,0)-(0,0), not the root node,
    whose range is (0,0)-(0,28). *)
Lemma dead_end_not_root :
  walkPointer ingredients_tree (pathParts (js"0/ingredients/0")) = None /\
  walkPointer ingredients_tree (pathParts (js"0/ingredients/0"))
  <> Some ingredients_tree /\
  node_range (one_line_document ingredients_text) ingredients_tree
  = mkRange (mkPosition 0 0) (mkPosition 0 28) /\
  range (locateInTree (file (js"/foo/assets/foo/a.json"))
           (one_line_document ingredients_text) ingredients_tree
           (js"0/ingredients/0"))
  = mkRange (mkPosition 0 0) (mkPosition 0 0) /\
  range (locateInTree (file (js"/foo/assets/foo/a.json"))
           (one_line_document ingredients_text) ingredients_tree
           (js"0/ingredients/0"))
  <> node_range (one_line_document ingredients_text) ingredients_tree.
Proof.
  split; [reflexivity|]. split; [discriminate|]. split; [reflexivity|].
  split; [reflexivity | discriminate].
Qed.

(** *** Array steps *)

Lemma digit_not_space (c : N) :
  is_decimal_digit c = true -> JS.isStrWhiteSpaceChar c = false.
Proof.
  unfold is_decimal_digit, JS.isStrWhiteSpaceChar. intros H.
  apply andb_true_iff in H as [Hl Hu].
  apply N.leb_le in Hl, Hu. simpl existsb.
  repeat match goal with
         | |- (_ || _) = false => apply orb_false_iff; split
         | |- N.eqb _ _ = false => apply N.eqb_neq; lia
         | |- false = false => reflexivity
         end.
  apply andb_false_iff. left. apply N.leb_gt. lia.
Qed.

Lemma digitValue_decimal (c : N) :
  is_decimal_digit c = true -> JS.digitValue 10 c = Some (Z.of_N c - 48)%Z.
Proof.
  unfold is_decimal_digit, JS.digitValue. intros H. rewrite H.
  apply andb_true_iff in H as [Hl Hu]. apply N.leb_le in Hl, Hu.
  destruct (Z.of_N c - 48 <? 10)%Z eqn:L; [reflexivity|].
  apply Z.ltb_ge in L. lia.
Qed.

Lemma digits_decimal (s : JS.jsstring) (acc : Z) :
  forallb is_decimal_digit s = true ->
  JS.digits 10 s (Some acc) =
  Some (fold_left (fun a c => (a * 10 + (Z.of_N c - 48))%Z) s acc).
Proof.
  revert acc; induction s as [|c s IH]; intros acc H; simpl in *.
  - reflexivity.
  - apply andb_true_iff in H as [Hc Hs].
    rewrite (digitValue_decimal c Hc). now apply IH.
Qed.

(** On a non-empty run of decimal digits [parseInt] is the decimal
    value: there the code and the specification's wording agree. *)
Lemma parseInt_decimal (segment : JS.jsstring) :
  is_index_spec segment = true ->
  JS.parseInt segment = Some (decimal segment).
Proof.
  unfold is_index_spec. intros H. apply andb_true_iff in H as [Hne Hall].
  destruct segment as [|c s]; [discriminate|]. clear Hne.
  simpl in Hall. apply andb_true_iff in Hall as [Hc Hs].
  unfold JS.parseInt. simpl JS.trimStart. rewrite (digit_not_space c Hc).
  assert (Hb : (48 <= c <= 57)%N).
  { unfold is_decimal_digit in Hc. apply andb_true_iff in Hc as [Hl Hu].
    apply N.leb_le in Hl, Hu. lia. }
  assert (E45 : N.eqb c 45 = false) by (apply N.eqb_neq; lia).
  assert (E43 : N.eqb c 43 = false) by (apply N.eqb_neq; lia).
  rewrite E45, E43.
  assert (Hd : JS.digits 10 (c :: s) None = Some (decimal (c :: s))).
  { simpl JS.digits. rewrite (digitValue_decimal c Hc).
    rewrite (digits_decimal s _ Hs). reflexivity. }
  destruct s as [|c1 s'].
  - cbv beta iota zeta. rewrite Hd. now rewrite Z.mul_1_l.
  - simpl in Hs. apply andb_true_iff in Hs as [Hc1 _].
    unfold is_decimal_digit in Hc1. apply andb_true_iff in Hc1 as [Hl Hu].
    apply N.leb_le in Hl, Hu.
    assert (E1 : N.eqb c1 120 = false) by (apply N.eqb_neq; lia).
    assert (E2 : N.eqb c1 88 = false) by (apply N.eqb_neq; lia).
    rewrite E1, E2, andb_false_r. cbv beta iota zeta.
    rewrite Hd. now rewrite Z.mul_1_l.
Qed.

(** C5 (as the code has it): on an array node the step succeeds exactly
    when [parseInt] reads a number from the segment and that number is
    a non-negative index inside the child list; the step then selects
    that child.  [parseInt] skips leading white space and a sign and
    ignores whatever follows the digits, so a mixed segment such as
    [2abc] is index 2; a negative number, and a segment with no leading
    digits, fail.  A failed step fails the whole pointer.  A segment
    that is a plain run of decimal digits is read as its decimal
    value. *)
Theorem walk_step_array (arr : Node) (cs : list Node) (segment : JS.jsstring) :
  type arr = NArray ->
  children arr = Some cs ->
  (forall m,
     walk_step arr segment = Some m <->
     exists index,
       JS.parseInt segment = Some index /\
       (0 <= index < Z.of_nat (List.length cs))%Z /\
       nth_error cs (Z.to_nat index) = Some m)
  /\
  (walk_step arr segment = None ->
   forall tree before after,
     walkPointer tree before = Some arr ->
     walkPointer tree (before ++ segment :: after) = None)
  /\
  (is_index_spec segment = true ->
   JS.parseInt segment = Some (decimal segment)).
Proof.
  intros Ht Hc. split; [|split; [|apply parseInt_decimal]].
  - intros m. unfold walk_step. rewrite Ht, Hc. unfold JS.index.
    destruct (JS.parseInt segment) as [index|].
    + destruct (index <? Z.of_nat (List.length cs))%Z eqn:L.
      * apply Z.ltb_lt in L. destruct (index <? 0)%Z eqn:N.
        -- apply Z.ltb_lt in N. split; [discriminate|].
           intros (i & E & Hr & _). inversion E; subst. lia.
        -- apply Z.ltb_ge in N. split.
           ++ intros E. exists index. auto.
           ++ intros (i & E & _ & Hn). inversion E; subst. exact Hn.
      * apply Z.ltb_ge in L. split; [discriminate|].
        intros (i & E & Hr & _). inversion E; subst. lia.
    + split; [discriminate | intros (i & E & _); discriminate].
  - intros Hs tree before after Hb. eapply walkPointer_fails_at; eauto.
Qed.

Lemma walk_step_array_witness :
  walk_step three_tree (js"2abc") = Some thirty.
Proof.
  apply (proj1 (walk_step_array three_tree
                  [num_node 10 1 2; num_node 20 4 2; thirty] (js"2abc")
                  eq_refl eq_refl)).
  exists 2%Z. split; [reflexivity|]. split; [simpl; lia | reflexivity].
Defined.

(** C5, as stated, fails: [2abc] is not a non-negative integer, yet in
    the tree of [[10,20,30]] it selects the third element instead of
    failing the pointer. *)
Lemma mixed_segment_is_accepted :
  is_index_spec (js"2abc") = false /\
  walk_step three_tree (js"2abc") = Some thirty /\
  walkPointer three_tree (pathParts (js"/2abc")) = Some thirty.
Proof. repeat split. Qed.

(** *** Candidate files *)

Lemma find_app {A : Type} (f : A -> bool) (l1 l2 : list A) :
  find f (l1 ++ l2) =
  match find f l1 with
  | Some x => Some x
  | None => find f l2
  end.
Proof.
  induction l1 as [|x l1 IH]; simpl; [reflexivity|].
  destruct (f x); [reflexivity | exact IH].
Qed.

Lemma resolve_own_candidates (h : Host) (domain relativePath : JS.jsstring)
  (folder : WorkspaceFolder) :
  resolve_own h domain relativePath folder =
  option_map file
    (find (existsSync h) (own_candidate h domain relativePath folder)).
Proof.
  unfold resolve_own, own_candidate.
  destruct (isMatchingFolder domain (name folder)); simpl; [|reflexivity].
  destruct (existsSync h _); reflexivity.
Qed.

Lemma resolve_children_candidates (h : Host) (domain relativePath : JS.jsstring)
  (folder : WorkspaceFolder) (entries : list (JS.jsstring * FileType)) :
  resolve_children h domain relativePath folder entries =
  option_map file
    (find (existsSync h)
       (map (fun entry =>
               path_join h [fsPath (folder_uri folder); fst entry; js"assets";
                            domain; relativePath])
            (filter (is_matching_subdir domain) entries))).
Proof.
  induction entries as [|[nm ty] entries IH]; simpl; [reflexivity|].
  unfold is_matching_subdir at 1. simpl.
  destruct (N.eqb ty Directory && isMatchingFolder domain nm); simpl.
  - destruct (existsSync h _); [reflexivity | exact IH].
  - exact IH.
Qed.

Lemma resolve_subdirs_candidates (h : Host) (domain relativePath : JS.jsstring)
  (folder : WorkspaceFolder) :
  resolve_subdirs h domain relativePath folder =
  option_map file
    (find (existsSync h) (subdir_candidates h domain relativePath folder)).
Proof.
  unfold resolve_subdirs, subdir_candidates.
  destruct (readDirectory h (folder_uri folder));
    [apply resolve_children_candidates | reflexivity].
Qed.

Lemma resolve_folders_candidates (h : Host) (domain relativePath : JS.jsstring)
  (folders : list WorkspaceFolder) :
  resolve_folders h domain relativePath folders =
  option_map file
    (find (existsSync h) (candidates h domain relativePath folders)).
Proof.
  unfold candidates.
  induction folders as [|f folders IH]; simpl; [reflexivity|].
  rewrite !find_app, resolve_own_candidates, resolve_subdirs_candidates, IH.
  destruct (find (existsSync h) (own_candidate h domain relativePath f));
    [reflexivity|].
  destruct (find (existsSync h) (subdir_candidates h domain relativePath f));
    reflexivity.
Qed.

(** C3 (as the code has it): for a token [domain:relativePath] the
    resolver forms one candidate [<dir>/assets/<domain>/<relativePath>]
    for every directory whose name matches the domain (each workspace
    folder, then its subdirectories of type Directory, folder by
    folder), tests them in that order and returns the first that exists
    on disk; it is absent exactly when none of them exists. *)
Theorem resolveVintageStoryPath_first_candidate (h : Host)
  (token domain relativePath : JS.jsstring) (folders : list WorkspaceFolder) :
  JS.split 58 token = [domain; relativePath] ->
  workspaceFolders h = Some folders ->
  resolveVintageStoryPath h token =
  option_map file
    (find (existsSync h) (candidates h domain relativePath folders))
  /\
  (resolveVintageStoryPath h token = None <->
   forall candidate,
     In candidate (candidates h domain relativePath folders) ->
     existsSync h candidate = false).
Proof.
  intros Hs Hw.
  assert (E : resolveVintageStoryPath h token =
              option_map file
                (find (existsSync h) (candidates h domain relativePath folders))).
  { unfold resolveVintageStoryPath. rewrite Hs, Hw.
    apply resolve_folders_candidates. }
  split; [exact E|]. rewrite E.
  destruct (find (existsSync h) (candidates h domain relativePath folders))
    as [found|] eqn:F; simpl.
  - split; [discriminate|]. intros Hall.
    destruct (find_some _ _ F) as [Hin Hex].
    rewrite (Hall found Hin) in Hex. discriminate.
  - split; [|reflexivity]. intros _ candidate Hin.
    exact (find_none _ _ F candidate Hin).
Qed.

Lemma resolveVintageStoryPath_first_candidate_witness :
  resolveVintageStoryPath versions_host (js"foo:x.json") =
  option_map file
    (find (existsSync versions_host)
       [js"/w/foo_1/assets/foo/x.json"; js"/w/foo_2/assets/foo/x.json"]).
Proof.
  exact (proj1 (resolveVintageStoryPath_first_candidate versions_host
                  (js"foo:x.json") (js"foo") (js"x.json") _ eq_refl eq_refl)).
Defined.

(** C3, as stated, fails: with [foo_1] and [foo_2] both open, the
    locator of the specification chooses [foo_1] (its name matches and
    it has [assets/foo]); the one candidate under it does not exist, so
    the specification's resolution is absent, but the code goes on to
    [foo_2] and returns the candidate under that second directory. *)
Lemma second_directory_is_tried :
  locateDomain_spec versions_host (js"foo") = Some [js"/w/foo_1"] /\
  existsSync versions_host
    (path_join versions_host [js"/w/foo_1"; js"assets"; js"foo"; js"x.json"])
  = false /\
  resolveReference_spec versions_host (js"foo:x.json") = None /\
  resolveVintageStoryPath versions_host (js"foo:x.json")
  = Some (file (js"/w/foo_2/assets/foo/x.json")).
Proof. repeat split. Qed.

(** *** Order of the search *)

(** C4 (as the code has it): the folders are handled one at a time in
    the order the editor reports them; for each folder the folder's own
    name is tried first and then its subdirectories, before the next
    folder is looked at.  So as soon as a folder has a match, of either
    kind, and no earlier folder has one, that match is the result,
    whatever the later folders are called. *)
Theorem resolve_folders_folder_by_folder (h : Host)
  (domain relativePath : JS.jsstring)
  (before : list WorkspaceFolder) (folder : WorkspaceFolder)
  (after : list WorkspaceFolder) (found : Uri) :
  (forall f, In f before ->
     resolve_own h domain relativePath f = None /\
     resolve_subdirs h domain relativePath f = None) ->
  (resolve_own h domain relativePath folder = Some found \/
   (resolve_own h domain relativePath folder = None /\
    resolve_subdirs h domain relativePath folder = Some found)) ->
  resolve_folders h domain relativePath (before ++ folder :: after) = Some found.
Proof.
  intros Hb Hf. induction before as [|f before IH]; simpl.
  - destruct Hf as [-> | [-> ->]]; reflexivity.
  - destruct (Hb f (or_introl eq_refl)) as [-> ->].
    apply IH. intros g Hg. apply Hb. now right.
Qed.

Lemma resolve_folders_folder_by_folder_witness :
  resolve_folders nested_host (js"foo") (js"x.json")
    [mkWorkspaceFolder (js"ws") (file (js"/w")); foo_folder]
  = Some (file (js"/w/foo_1/assets/foo/x.json")).
Proof.
  apply (resolve_folders_folder_by_folder nested_host (js"foo") (js"x.json")
           [] (mkWorkspaceFolder (js"ws") (file (js"/w"))) [foo_folder]).
  - intros f [].
  - right. split; reflexivity.
Defined.

(** C4, as stated, fails: folder [ws], whose subdirectory [foo_1] holds
    the mod, is open before folder [foo].  Testing every folder's own
    name first would find [foo]; the code returns the file under
    [ws/foo_1], found in step 2 of the first folder before the second
    folder's name is looked at. *)
Lemma subdirectory_beats_later_folder :
  locateDomain_spec nested_host (js"foo") = Some [js"/foo"] /\
  resolveReference_spec nested_host (js"foo:x.json")
  = Some (file (js"/foo/assets/foo/x.json")) /\
  resolveVintageStoryPath nested_host (js"foo:x.json")
  = Some (file (js"/w/foo_1/assets/foo/x.json")) /\
  resolveVintageStoryPath nested_host (js"foo:x.json")
  <> resolveReference_spec nested_host (js"foo:x.json").
Proof. repeat split. discriminate. Qed.

(** *** Worked examples *)

Example parseInt_examples :
  JS.parseInt (js"5") = Some 5%Z /\
  JS.parseInt (js"2abc") = Some 2%Z /\
  JS.parseInt (js"-1") = Some (-1)%Z /\
  JS.parseInt (js" 7") = Some 7%Z /\
  JS.parseInt (js"0x10") = Some 16%Z /\
  JS.parseInt (js"0x") = None /\
  JS.parseInt (js"abc") = None /\
  JS.parseInt [] = None.
Proof. repeat split. Qed.

Example split_examples :
  JS.split 58 (js"a:b") = [js"a"; js"b"] /\
  pathParts (js"/0//x/") = [js"0"; js"x"] /\
  pathParts (js"0/ingredients") = [js"0"; js"ingredients"].
Proof. repeat split. Qed.

(** Keys are compared verbatim: no escape sequence is decoded and case
    matters. *)
Example keys_are_verbatim :
  let obj := obj_node 0 9 [prop_node 1 7 (str_node (js"a~b") 1 5) (num_node 1 7 1)] in
  walk_step obj (js"a~0b") = None /\
  walk_step obj (js"A~b") = None /\
  walk_step obj (js"a~b") = Some (str_node (js"a~b") 1 5).
Proof. repeat split. Qed.

(** Negative indexes and indexes past the end fail. *)
Example index_examples :
  walkPointer three_tree (pathParts (js"-1")) = None /\
  walkPointer three_tree (pathParts (js"3")) = None /\
  walkPointer three_tree (pathParts (js"1")) = Some (num_node 20 4 2) /\
  walkPointer pair_tree (pathParts (js"5")) = None.
Proof. repeat split. Qed.

(** The end-to-end scenario of the specification on the [1,2] target:
    the pointer [/1] is reported at columns 3 to 4 of the target. *)
Example resolvePathDefinition_example :
  resolvePathDefinition pair_host request_node (js"/1") =
  Normal (Some (mkLocation (file (js"/foo/assets/foo/a.json"))
                  (mkRange (mkPosition 0 3) (mkPosition 0 4)))).
Proof. reflexivity. Qed.

(* ================================================================== *)
(** ** Further properties of the code *)

(** *** Pointer strings *)

Lemma split_nonempty (sep : N) (s : JS.jsstring) :
  exists part parts, JS.split sep s = part :: parts.
Proof.
  pose proof (split_length sep s) as L.
  destruct (JS.split sep s) as [|part parts]; [discriminate | eauto].
Qed.

Lemma split_app (sep : N) (a b : JS.jsstring) :
  JS.split sep (a ++ sep :: b) = JS.split sep a ++ JS.split sep b.
Proof.
  induction a as [|c a IH]; simpl.
  - now rewrite N.eqb_refl.
  - destruct (N.eqb c sep); [now rewrite IH|].
    rewrite IH. destruct (split_nonempty sep a) as (part & parts & ->).
    reflexivity.
Qed.

Lemma pathParts_app (a b : JS.jsstring) :
  pathParts (a ++ 47%N :: b) = pathParts a ++ pathParts b.
Proof. unfold pathParts. now rewrite split_app, filter_app. Qed.

(** X1: a pointer [a/b] is walked as [a] and then [b] from where [a]
    ended; if [a] fails, so does [a/b]. *)
Theorem walkPointer_slash (tree : Node) (a b : JS.jsstring) :
  walkPointer tree (pathParts (a ++ 47%N :: b)) =
  match walkPointer tree (pathParts a) with
  | Some n => walkPointer n (pathParts b)
  | None => None
  end.
Proof. rewrite pathParts_app. apply walkPointer_app. Qed.

Lemma split_no_separator (sep : N) (s part : JS.jsstring) :
  In part (JS.split sep s) -> ~ In sep part.
Proof.
  revert part; induction s as [|c s IH]; intros part; simpl.
  - intros [<- | []] [].
  - destruct (N.eqb c sep) eqn:E.
    + intros [<- | Hin]; [intros [] | now apply IH].
    + destruct (split_nonempty sep s) as (p & ps & Hs). rewrite Hs in *.
      intros [<- | Hin].
      * intros [-> | Hp]; [now rewrite N.eqb_refl in E|].
        apply (IH p); [now left | exact Hp].
      * apply IH. now right.
Qed.

(** X2: the segments of a pointer are never empty and never contain a
    slash, so a property whose key is empty or contains [/] cannot be
    addressed by any pointer. *)
Theorem pathParts_segments (jsonPointer segment : JS.jsstring) :
  In segment (pathParts jsonPointer) ->
  segment <> [] /\ ~ In 47%N segment.
Proof.
  unfold pathParts. intros H. apply filter_In in H as [Hin Hne]. split.
  - intros ->. discriminate.
  - eapply split_no_separator; eauto.
Qed.

Lemma pathParts_segments_witness :
  js"ingredients" <> [] /\ ~ In 47%N (js"ingredients").
Proof.
  apply (pathParts_segments (js"0/ingredients")). simpl. right. left. reflexivity.
Defined.

Lemma pathParts_only_slashes (jsonPointer : JS.jsstring) :
  forallb (N.eqb 47) jsonPointer = true -> pathParts jsonPointer = [].
Proof.
  unfold pathParts. induction jsonPointer as [|c s IH]; intros H; [reflexivity|].
  cbn [forallb] in H. apply andb_true_iff in H as [Hc Hs].
  apply N.eqb_eq in Hc. subst c.
  cbn [JS.split]. rewrite N.eqb_refl. simpl filter. now apply IH.
Qed.

(** X3: a pointer that is empty or made of slashes only has no
    segments: the walk stays on the root of the target tree and the
    provider reports the range of the root node. *)
Theorem empty_pointer_is_root (h : Host) (pathNode : Located) (targetUri : Uri)
  (doc : TextDocument) (tree : Node) (jsonPointer : JS.jsstring) :
  forallb (N.eqb 47) jsonPointer = true ->
  reaches_target h pathNode targetUri doc tree ->
  walkPointer tree (pathParts jsonPointer) = Some tree /\
  resolvePathDefinition h pathNode jsonPointer =
  Normal (Some (mkLocation targetUri (node_range doc tree))).
Proof.
  intros Hs Hr. rewrite (pathParts_only_slashes _ Hs). split; [reflexivity|].
  rewrite (resolvePathDefinition_reaches _ _ _ _ _ _ Hr).
  unfold locateInTree. now rewrite (pathParts_only_slashes _ Hs).
Qed.

Lemma empty_pointer_is_root_witness :
  resolvePathDefinition pair_host request_node (js"//") =
  Normal (Some (mkLocation (file (js"/foo/assets/foo/a.json"))
                  (mkRange (mkPosition 0 0) (mkPosition 0 5)))).
Proof.
  exact (proj2 (empty_pointer_is_root pair_host request_node _ _ _ (js"//")
                  eq_refl pair_host_reaches)).
Defined.

(** *** Where a walk can end *)

Lemma subnode_trans (a b c : Node) : subnode a b -> subnode b c -> subnode a c.
Proof.
  induction 1 as [|n ch d cs Hc Hin _ IH]; [auto|].
  intros H. eapply subnode_child; eauto.
Qed.

Lemma subnode_of_child (n c : Node) (cs : list Node) :
  children n = Some cs -> In c cs -> subnode n c.
Proof. intros Hc Hin. eapply subnode_child; eauto using subnode_refl. Qed.

Lemma child_in (i : nat) (n c : Node) :
  child i n = Some c -> exists cs, children n = Some cs /\ In c cs.
Proof.
  unfold child. destruct (children n) as [cs|]; [|discriminate].
  intros H. exists cs. split; [reflexivity | eapply nth_error_In; eauto].
Qed.

Lemma walk_step_subnode (n m : Node) (segment : JS.jsstring) :
  walk_step n segment = Some m -> subnode n m.
Proof.
  unfold walk_step. destruct (type n) eqn:Ht; try discriminate.
  - destruct (findProperty n segment) as [p|] eqn:Hf; [|discriminate].
    unfold findProperty in Hf. rewrite Ht in Hf.
    destruct (children n) as [cs|] eqn:Hc; [|discriminate].
    destruct (find_some _ _ Hf) as [Hin _].
    intros H.
    assert (Hm : exists i, child i p = Some m).
    { destruct (child 0 p) eqn:H0; [exists 0%nat; congruence | exists 1%nat; exact H]. }
    destruct Hm as [i Hi]. destruct (child_in _ _ _ Hi) as (ps & Hpc & Hpin).
    eapply subnode_child; [exact Hc | exact Hin |].
    eapply subnode_of_child; eauto.
  - destruct (JS.parseInt segment) as [index|]; [|discriminate].
    destruct (children n) as [cs|] eqn:Hc; [|discriminate].
    destruct (index <? Z.of_nat (List.length cs))%Z; [|discriminate].
    unfold JS.index. destruct (index <? 0)%Z; [discriminate|].
    intros H. eapply subnode_of_child; eauto using nth_error_In.
Qed.

(** X4: a walk that succeeds ends on the tree it started from or on a
    node below it; the range the provider reports is always that of a
    node of the target document. *)
Theorem walkPointer_subnode (tree n : Node) (parts : list JS.jsstring) :
  walkPointer tree parts = Some n -> subnode tree n.
Proof.
  revert tree; induction parts as [|part parts IH]; intros tree.
  - intros H. inversion H. apply subnode_refl.
  - rewrite walkPointer_cons.
    destruct (walk_step tree part) as [m|] eqn:Hs; [|discriminate].
    intros H. eapply subnode_trans; [eapply walk_step_subnode | apply IH]; eauto.
Qed.

Lemma walkPointer_subnode_witness : subnode ingredients_tree ingredients_key.
Proof.
  exact (walkPointer_subnode ingredients_tree ingredients_key
           [js"0"; js"ingredients"] eq_refl).
Defined.

(** *** Lookup by key *)

(** X5: [findProperty] returns a node only if it is a property child of
    the object whose key node carries exactly the key, and it returns
    nothing exactly when no property child carries the key. *)
Theorem findProperty_sound_complete (obj : Node) (key : JS.jsstring) :
  (forall p, findProperty obj key = Some p ->
     type obj = NObject /\
     exists cs keyNode rest,
       children obj = Some cs /\ In p cs /\ type p = NProperty /\
       children p = Some (keyNode :: rest) /\
       value keyNode = Some (JString key))
  /\
  (findProperty obj key = None <->
   type obj <> NObject \/ children obj = None \/
   exists cs, children obj = Some cs /\
              forall p, In p cs -> has_key key p = false).
Proof.
  unfold findProperty. split.
  - intros p H. destruct (type obj) eqn:Ht; try discriminate.
    destruct (children obj) as [cs|] eqn:Hc; [|discriminate].
    destruct (find_some _ _ H) as [Hin Hk].
    destruct (has_key_inv _ _ Hk) as (Hp & k & rest & Hpc & Hv).
    split; [reflexivity|]. exists cs, k, rest. auto.
  - destruct (type obj) eqn:Ht;
      try (split; [intros _; left; discriminate | reflexivity]).
    destruct (children obj) as [cs|] eqn:Hc.
    + split.
      * intros H. right; right. exists cs. split; [reflexivity|].
        intros p. apply (find_none _ _ H).
      * intros [H | [H | (cs' & E & H)]]; [congruence | discriminate |].
        inversion E; subst cs'.
        destruct (find (has_key key) cs) as [p|] eqn:F; [|reflexivity].
        destruct (find_some _ _ F) as [Hin Hk]. rewrite (H p Hin) in Hk.
        discriminate.
    + split; [intros _; right; left; reflexivity | reflexivity].
Qed.

(** *** Index segments *)

Lemma digitValue_not_decimal (c : N) :
  is_decimal_digit c = false -> JS.digitValue 10 c = None.
Proof.
  unfold is_decimal_digit, JS.digitValue. intros H. rewrite H.
  destruct (N.leb 97 c && N.leb c 122) eqn:L.
  - apply andb_true_iff in L as [Hl Hu]. apply N.leb_le in Hl, Hu.
    destruct (Z.of_N c - 87 <? 10)%Z eqn:D; [|reflexivity].
    apply Z.ltb_lt in D. lia.
  - destruct (N.leb 65 c && N.leb c 90) eqn:U; [|reflexivity].
    apply andb_true_iff in U as [Hl Hu]. apply N.leb_le in Hl, Hu.
    destruct (Z.of_N c - 55 <? 10)%Z eqn:D; [|reflexivity].
    apply Z.ltb_lt in D. lia.
Qed.

Lemma digits_decimal_prefix (ds rest : JS.jsstring) (acc : Z) :
  forallb is_decimal_digit ds = true ->
  match rest with c :: _ => is_decimal_digit c | [] => false end = false ->
  JS.digits 10 (ds ++ rest) (Some acc) = JS.digits 10 ds (Some acc).
Proof.
  revert acc; induction ds as [|d ds IH]; intros acc Hd Hr.
  - simpl. destruct rest as [|c rest]; [reflexivity|].
    simpl. now rewrite (digitValue_not_decimal c Hr).
  - simpl in Hd. apply andb_true_iff in Hd as [Hd Hds].
    simpl. rewrite (digitValue_decimal d Hd). now apply IH.
Qed.

Lemma parseInt_decimal_prefix (ds rest : JS.jsstring) :
  is_index_spec ds = true ->
  continues_number ds rest = false ->
  JS.parseInt (ds ++ rest) = Some (decimal ds).
Proof.
  unfold is_index_spec. intros H Hrest. apply andb_true_iff in H as [Hne Hall].
  destruct ds as [|d ds]; [discriminate|]. clear Hne.
  simpl in Hall. apply andb_true_iff in Hall as [Hd Hds].
  assert (Hb : (48 <= d <= 57)%N).
  { unfold is_decimal_digit in Hd. apply andb_true_iff in Hd as [Hl Hu].
    apply N.leb_le in Hl, Hu. lia. }
  assert (Hnext : match rest with c :: _ => is_decimal_digit c | [] => false end
                  = false).
  { destruct rest as [|c rest]; [reflexivity|].
    simpl in Hrest. now apply orb_false_iff in Hrest as [-> _]. }
  assert (Hdig : JS.digits 10 ((d :: ds) ++ rest) None = Some (decimal (d :: ds))).
  { simpl JS.digits. rewrite (digitValue_decimal d Hd).
    rewrite (digits_decimal_prefix ds rest _ Hds Hnext).
    rewrite (digits_decimal ds _ Hds). reflexivity. }
  unfold JS.parseInt. simpl JS.trimStart. rewrite (digit_not_space d Hd).
  assert (E45 : N.eqb d 45 = false) by (apply N.eqb_neq; lia).
  assert (E43 : N.eqb d 43 = false) by (apply N.eqb_neq; lia).
  rewrite E45, E43.
  assert (Hprefix : match ds ++ rest with
                    | c1 :: _ => N.eqb d 48 && (N.eqb c1 120 || N.eqb c1 88)
                    | [] => false
                    end = false).
  { destruct ds as [|c1 ds'].
    - destruct rest as [|c1 rest']; [reflexivity|]. simpl.
      simpl in Hrest. apply orb_false_iff in Hrest as [_ Hx].
      now rewrite andb_true_r in Hx.
    - simpl. simpl in Hds. apply andb_true_iff in Hds as [Hc1 _].
      unfold is_decimal_digit in Hc1. apply andb_true_iff in Hc1 as [Hl Hu].
      apply N.leb_le in Hl, Hu.
      assert (E1 : N.eqb c1 120 = false) by (apply N.eqb_neq; lia).
      assert (E2 : N.eqb c1 88 = false) by (apply N.eqb_neq; lia).
      now rewrite E1, E2, andb_false_r. }
  simpl app in *.
  destruct (ds ++ rest) as [|c1 tail].
  - cbv beta iota zeta. rewrite Hdig. now rewrite Z.mul_1_l.
  - rewrite Hprefix. cbv beta iota zeta. rewrite Hdig. now rewrite Z.mul_1_l.
Qed.

(** X6: on an array node, text that follows the digits of a segment is
    ignored: [2abc], [2.5] or [2 ] select what [2] selects.  The only
    text that matters is a further digit, or an [x] right after a
    single [0], which starts a hexadecimal number. *)
Theorem walk_step_trailing_text (arr : Node) (ds rest : JS.jsstring) :
  type arr = NArray ->
  is_index_spec ds = true ->
  continues_number ds rest = false ->
  walk_step arr (ds ++ rest) = walk_step arr ds.
Proof.
  intros Ht Hd Hr. unfold walk_step. rewrite Ht.
  now rewrite (parseInt_decimal_prefix ds rest Hd Hr), (parseInt_decimal ds Hd).
Qed.

Lemma walk_step_trailing_text_witness :
  walk_step three_tree (js"1.5") = walk_step three_tree (js"1").
Proof.
  exact (walk_step_trailing_text three_tree (js"1") (js".5") eq_refl eq_refl eq_refl).
Defined.

(** *** What a resolved reference is *)

Lemma candidates_shape (h : Host) (domain relativePath : JS.jsstring)
  (folders : list WorkspaceFolder) (candidate : JS.jsstring) :
  In candidate (candidates h domain relativePath folders) ->
  exists folder,
    In folder folders /\
    ((isMatchingFolder domain (name folder) = true /\
      candidate = path_join h [fsPath (folder_uri folder); js"assets"; domain;
                               relativePath])
     \/
     (exists entries sub,
        readDirectory h (folder_uri folder) = Some entries /\
        In (sub, Directory) entries /\
        isMatchingFolder domain sub = true /\
        candidate = path_join h [fsPath (folder_uri folder); sub; js"assets";
                                 domain; relativePath])).
Proof.
  unfold candidates. rewrite in_flat_map. intros (folder & Hin & Hc).
  exists folder. split; [exact Hin|].
  apply in_app_or in Hc as [Hown | Hsub].
  - left. unfold own_candidate in Hown.
    destruct (isMatchingFolder domain (name folder)); [|contradiction].
    destruct Hown as [<- | []]. auto.
  - right. unfold subdir_candidates in Hsub.
    destruct (readDirectory h (folder_uri folder)) as [entries|]; [|contradiction].
    apply in_map_iff in Hsub as ([sub ty] & <- & Hf).
    apply filter_In in Hf as [Hin' Hm]. unfold is_matching_subdir in Hm.
    simpl in Hm. apply andb_true_iff in Hm as [Hty Hm].
    apply N.eqb_eq in Hty. subst ty.
    exists entries, sub. auto.
Qed.

Lemma resolve_found_candidate (h : Host) (token : JS.jsstring) (found : Uri) :
  resolveVintageStoryPath h token = Some found ->
  existsSync h (fsPath found) = true /\
  exists domain relativePath folders,
    JS.split 58 token = [domain; relativePath] /\
    workspaceFolders h = Some folders /\
    In (fsPath found) (candidates h domain relativePath folders).
Proof.
  unfold resolveVintageStoryPath.
  destruct (JS.split 58 token) as [|domain [|relativePath [|third rest]]] eqn:Hs;
    try discriminate.
  destruct (workspaceFolders h) as [folders|] eqn:Hw; [|discriminate].
  rewrite resolve_folders_candidates.
  destruct (find (existsSync h) (candidates h domain relativePath folders))
    as [c|] eqn:F; [|discriminate].
  simpl. intros E. inversion E; subst found. simpl.
  destruct (find_some _ _ F) as [Hin Hex]. split; [exact Hex|].
  exists domain, relativePath, folders. auto.
Qed.

(** X7: a resolved reference always names a path that [existsSync]
    confirmed, and that path is what [path.join] makes of the path of
    a workspace folder, [assets], the domain and the relative path, or
    of the folder's path, the name of one of its entries of type
    Directory, [assets], the domain and the relative path; the name of
    the folder, or of the entry, matches the domain pattern. *)
Theorem resolveVintageStoryPath_sound (h : Host) (token : JS.jsstring) (found : Uri) :
  resolveVintageStoryPath h token = Some found ->
  existsSync h (fsPath found) = true /\
  exists domain relativePath folders folder,
    JS.split 58 token = [domain; relativePath] /\
    workspaceFolders h = Some folders /\
    In folder folders /\
    ((matches_domain_pattern domain (name folder) /\
      fsPath found = path_join h [fsPath (folder_uri folder); js"assets"; domain;
                                  relativePath])
     \/
     (exists entries sub,
        readDirectory h (folder_uri folder) = Some entries /\
        In (sub, Directory) entries /\
        matches_domain_pattern domain sub /\
        fsPath found = path_join h [fsPath (folder_uri folder); sub; js"assets";
                                    domain; relativePath])).
Proof.
  intros Hr.
  destruct (resolve_found_candidate h token found Hr)
    as (Hex & domain & relativePath & folders & Hs & Hw & Hin).
  split; [exact Hex|].
  destruct (candidates_shape _ _ _ _ _ Hin) as (folder & Hf & Hshape).
  exists domain, relativePath, folders, folder.
  repeat (split; [assumption|]).
  destruct Hshape as [[Hm E] | (entries & sub & Hrd & Hi & Hm & E)].
  - left. split; [now apply isMatchingFolder_iff | exact E].
  - right. exists entries, sub. repeat split; auto.
    now apply isMatchingFolder_iff.
Qed.

Lemma resolveVintageStoryPath_sound_witness :
  existsSync versions_host (js"/w/foo_2/assets/foo/x.json") = true.
Proof.
  exact (proj1 (resolveVintageStoryPath_sound versions_host (js"foo:x.json")
                  (file (js"/w/foo_2/assets/foo/x.json")) eq_refl)).
Defined.

Lemma candidate_holds_domain (h : Host) (domain relativePath : JS.jsstring)
  (folders : list WorkspaceFolder) (candidate : JS.jsstring) :
  assets_closed h domain relativePath ->
  In candidate (candidates h domain relativePath folders) ->
  existsSync h candidate = true ->
  exists_folders h domain folders = true.
Proof.
  intros Hfs Hc Hex.
  destruct (candidates_shape _ _ _ _ _ Hc) as (folder & Hin & Hshape).
  apply exists_folders_iff.
  exists folder. split; [exact Hin|]. unfold folder_holds_domain.
  destruct Hshape as [[Hm E] | (entries & sub & Hrd & Hi & Hm & E)].
  - left. split; [now apply isMatchingFolder_iff|].
    apply (Hfs [fsPath (folder_uri folder)]). simpl. now rewrite <- E.
  - right. exists entries, sub. repeat split; auto.
    + now apply isMatchingFolder_iff.
    + apply (Hfs [fsPath (folder_uri folder); sub]). simpl. now rewrite <- E.
Qed.

(** X8: on a disk where a file under [assets/<domain>] implies that
    [assets/<domain>] exists, a reference that resolves has a domain
    that the existence check finds: the hover never offers to download
    a mod for a reference that go-to-definition can follow. *)
Theorem resolved_domain_exists (h : Host) (token domain relativePath : JS.jsstring)
  (found : Uri) :
  JS.split 58 token = [domain; relativePath] ->
  assets_closed h domain relativePath ->
  resolveVintageStoryPath h token = Some found ->
  checkDomainExists h domain = true.
Proof.
  intros Hs Hfs Hr.
  destruct (resolve_found_candidate h token found Hr)
    as (Hex & d & r & folders & Hs' & Hw & Hc).
  rewrite Hs in Hs'. inversion Hs'; subst d r.
  unfold checkDomainExists. rewrite Hw.
  eapply candidate_holds_domain; eauto.
Qed.

Lemma posix_join_snoc (parts : list JS.jsstring) (last : JS.jsstring) :
  parts <> [] ->
  posix_join (parts ++ [last]) = posix_join parts ++ 47%N :: last.
Proof.
  induction parts as [|p parts IH]; [congruence|]. intros _.
  destruct parts as [|q parts]; [reflexivity|].
  change (p ++ 47%N :: posix_join ((q :: parts) ++ [last])
          = (p ++ 47%N :: posix_join (q :: parts)) ++ 47%N :: last).
  rewrite IH by discriminate. now rewrite <- app_assoc.
Qed.

Lemma nested_host_closed : assets_closed nested_host (js"foo") (js"x.json").
Proof.
  intros dir. unfold nested_host, disk_host. cbn [path_join existsSync].
  change (dir ++ [js"assets"; js"foo"; js"x.json"])
    with (dir ++ [js"assets"; js"foo"] ++ [js"x.json"]).
  rewrite app_assoc, posix_join_snoc by (destruct dir; discriminate).
  generalize (posix_join (dir ++ [js"assets"; js"foo"])). intros P H.
  change (47%N :: js"x.json") with (js"/x.json") in H.
  cbn [existsb] in H. repeat rewrite orb_true_iff in H.
  destruct H as [H | [H | [H | [H | H]]]]; try discriminate;
    apply eqb_eq in H.
  - apply (f_equal (@rev N)) in H. rewrite rev_app_distr in H. discriminate.
  - apply (app_inv_tail (js"/x.json") P (js"/w/foo_1/assets/foo")) in H.
    now subst P.
  - apply (f_equal (@rev N)) in H. rewrite rev_app_distr in H. discriminate.
  - apply (app_inv_tail (js"/x.json") P (js"/foo/assets/foo")) in H.
    now subst P.
Defined.

Lemma resolved_domain_exists_witness :
  checkDomainExists nested_host (js"foo") = true.
Proof.
  exact (resolved_domain_exists nested_host (js"foo:x.json") (js"foo") (js"x.json")
           (file (js"/w/foo_1/assets/foo/x.json")) eq_refl nested_host_closed
           eq_refl).
Defined.

(** *** Directories that cannot be read *)

Lemma resolve_folders_empty_listings (h : Host) (domain relativePath : JS.jsstring)
  (folders : list WorkspaceFolder) :
  resolve_folders (with_empty_listings h) domain relativePath folders =
  resolve_folders h domain relativePath folders.
Proof.
  induction folders as [|f folders IH]; [reflexivity|].
  cbn [resolve_folders]. rewrite IH.
  change (resolve_own (with_empty_listings h) domain relativePath f)
    with (resolve_own h domain relativePath f).
  destruct (resolve_own h domain relativePath f); [reflexivity|].
  unfold resolve_subdirs. cbn [with_empty_listings readDirectory].
  destruct (readDirectory h (folder_uri f)) as [entries|]; reflexivity.
Qed.

Lemma exists_folders_empty_listings (h : Host) (domain : JS.jsstring)
  (folders : list WorkspaceFolder) :
  exists_folders (with_empty_listings h) domain folders =
  exists_folders h domain folders.
Proof.
  induction folders as [|f folders IH]; [reflexivity|].
  cbn [exists_folders]. rewrite IH.
  cbn [with_empty_listings readDirectory path_join existsSync].
  destruct (readDirectory h (folder_uri f)) as [entries|]; reflexivity.
Qed.

(** X9: a workspace folder whose listing cannot be read is treated
    exactly like a folder with no entries: its own name is still tried,
    the search goes on with the next folder, and neither resolution nor
    the existence check fails because of it. *)
Theorem unreadable_directory_is_empty (h : Host) (token domain : JS.jsstring) :
  resolveVintageStoryPath (with_empty_listings h) token =
  resolveVintageStoryPath h token
  /\ checkDomainExists (with_empty_listings h) domain = checkDomainExists h domain.
Proof.
  split.
  - unfold resolveVintageStoryPath. cbn [with_empty_listings workspaceFolders].
    destruct (JS.split 58 token) as [|d [|r [|third rest]]]; try reflexivity.
    destruct (workspaceFolders h); [apply resolve_folders_empty_listings | reflexivity].
  - unfold checkDomainExists. cbn [with_empty_listings workspaceFolders].
    destruct (workspaceFolders h); [apply exists_folders_empty_listings | reflexivity].
Qed.

(** *** Order of the folders *)

Lemma exists_folders_with_folders (h : Host) (domain : JS.jsstring)
  (open folders : list WorkspaceFolder) :
  exists_folders (with_folders h open) domain folders =
  exists_folders h domain folders.
Proof.
  induction folders as [|f folders IH]; [reflexivity|].
  cbn [exists_folders]. rewrite IH. reflexivity.
Qed.

(** X10: the existence check does not depend on the order in which the
    workspace folders are open (the resolved file does). *)
Theorem checkDomainExists_order (h : Host) (domain : JS.jsstring)
  (folders folders' : list WorkspaceFolder) :
  Permutation folders folders' ->
  checkDomainExists (with_folders h folders) domain =
  checkDomainExists (with_folders h folders') domain.
Proof.
  intros HP. unfold checkDomainExists. cbn [with_folders workspaceFolders].
  rewrite !exists_folders_with_folders.
  destruct (exists_folders h domain folders) eqn:E;
    destruct (exists_folders h domain folders') eqn:E'; try reflexivity.
  - apply exists_folders_iff in E as (f & Hin & Hf).
    assert (exists_folders h domain folders' = true) as E''.
    { apply exists_folders_iff. exists f. split; [|exact Hf].
      eapply Permutation_in; eauto. }
    congruence.
  - apply exists_folders_iff in E' as (f & Hin & Hf).
    assert (exists_folders h domain folders = true) as E''.
    { apply exists_folders_iff. exists f. split; [|exact Hf].
      eapply Permutation_in; [apply Permutation_sym|]; eauto. }
    congruence.
Qed.

Lemma checkDomainExists_order_witness :
  checkDomainExists
    (with_folders nested_host [mkWorkspaceFolder (js"ws") (file (js"/w")); foo_folder])
    (js"foo") =
  checkDomainExists
    (with_folders nested_host [foo_folder; mkWorkspaceFolder (js"ws") (file (js"/w"))])
    (js"foo").
Proof.
  apply checkDomainExists_order. apply perm_swap.
Defined.

(** *** The domain pattern *)

Lemma eqb_longer (domain : JS.jsstring) (c : N) (rest : JS.jsstring) :
  JS.eqb (domain ++ c :: rest) domain = false.
Proof.
  destruct (JS.eqb (domain ++ c :: rest) domain) eqn:E; [|reflexivity].
  apply eqb_eq in E. apply (f_equal (@List.length N)) in E.
  rewrite length_app in E. simpl in E. lia.
Qed.

Lemma startsWith_separator (domain : JS.jsstring) (c sep : N) (rest : JS.jsstring) :
  JS.startsWith (domain ++ c :: rest) (domain ++ [sep]) = N.eqb c sep.
Proof.
  induction domain as [|d domain IH]; simpl.
  - apply andb_true_r.
  - now rewrite N.eqb_refl, IH.
Qed.

(** X11: a name that is longer than the domain matches it exactly when
    the character right after the domain is [_] or [-].  So [rust] does
    not match [rustboundmagic], while [foo] does match [foo-bar_1.0]:
    what follows the separator is not looked at. *)
Theorem isMatchingFolder_separator (domain : JS.jsstring) (c : N)
  (rest : JS.jsstring) :
  isMatchingFolder domain (domain ++ c :: rest) = N.eqb c 95 || N.eqb c 45.
Proof.
  unfold isMatchingFolder.
  rewrite eqb_longer.
  change (js"_") with [95%N]. change (js"-") with [45%N].
  now rewrite !startsWith_separator.
Qed.

(** *** Go to definition *)

Lemma NodeType_eqb_eq (a b : NodeType) : NodeType_eqb a b = true <-> a = b.
Proof. destruct a, b; simpl; split; congruence. Qed.

Lemma value_is_eq (v : option JValue) (key : JS.jsstring) :
  value_is v key = true <-> v = Some (JString key).
Proof.
  unfold value_is. destruct v as [[s| | |]|]; try (split; congruence).
  rewrite eqb_eq. split; [now intros -> | intros E; now inversion E].
Qed.

Lemma provideDefinition_clicked (ed : Editor) (document : TextDocument)
  (position : Position) (location : Location) :
  provideDefinition ed document position = Some location ->
  exists n keyNode valueNode,
    clicked_property ed document position n keyNode valueNode /\
    ((value keyNode = Some (JString (js"file")) /\
      exists v, value valueNode = Some (JString v) /\
                resolveFileDefinition (host ed) v = Some location)
     \/
     (value keyNode = Some (JString (js"path")) /\
      ((exists v, value valueNode = Some (JString v) /\
                  resolvePathDefinition (host ed)
                    (mkLocated valueNode (ancestors n)) v
                  = Normal (Some location))
       \/
       (exists targetUri,
          resolvePathTarget (host ed) (mkLocated valueNode (ancestors n))
          = Unparsed targetUri /\
          location = Location_at targetUri (mkPosition 0 0))))).
Proof.
  unfold provideDefinition.
  destruct (parseTree (host ed) (getText document)) as [tree|] eqn:Hp;
    [|discriminate].
  destruct (findNodeAtOffset ed tree (offsetAt ed document position))
    as [n|] eqn:Hf; [|discriminate].
  destruct (NodeType_eqb (type (node n)) NString) eqn:Hn; [|discriminate].
  destruct (parent n) as [par|] eqn:Hpar; [|discriminate].
  destruct (NodeType_eqb (type (node par)) NProperty) eqn:Hpt; [|discriminate].
  destruct (child 0 (node par)) as [keyNode|] eqn:Hk; [|discriminate].
  destruct (NodeType_eqb (type keyNode) NString) eqn:Hkt; [|discriminate].
  destruct (child 1 (node par)) as [valueNode|] eqn:Hv; [|discriminate].
  destruct (NodeType_eqb (type valueNode) NString) eqn:Hvt; [|discriminate].
  apply NodeType_eqb_eq in Hn, Hpt, Hkt, Hvt. cbn [negb].
  intros H. exists n, keyNode, valueNode. split.
  { exists tree, par. repeat split; assumption. }
  destruct (value_is (value keyNode) (js"file")) eqn:Kf.
  - left. apply value_is_eq in Kf. split; [exact Kf|].
    destruct (value valueNode) as [[v| | |]|]; try discriminate. eauto.
  - destruct (value_is (value keyNode) (js"path")) eqn:Kp; [|discriminate].
    right. apply value_is_eq in Kp. split; [exact Kp|].
    destruct (value valueNode) as [[v| | |]|] eqn:Vv.
    + left. exists v. split; [reflexivity|].
      destruct (resolvePathDefinition (host ed) _ v) as [r|]; [|discriminate].
      now subst r.
    + right.
      destruct (resolvePathTarget (host ed) _) as [| |u|u d t]; try discriminate.
      exists u. split; [reflexivity | now inversion H].
    + right.
      destruct (resolvePathTarget (host ed) _) as [| |u|u d t]; try discriminate.
      exists u. split; [reflexivity | now inversion H].
    + right.
      destruct (resolvePathTarget (host ed) _) as [| |u|u d t]; try discriminate.
      exists u. split; [reflexivity | now inversion H].
    + right.
      destruct (resolvePathTarget (host ed) _) as [| |u|u d t]; try discriminate.
      exists u. split; [reflexivity | now inversion H].
Qed.

(** X12: go-to-definition answers only on a string that is the key or
    the value of a property whose key is exactly [file] or [path] and
    whose value is a string node; on any other node, any other key, or
    a document that does not parse, it returns nothing. *)
Theorem provideDefinition_only_file_or_path (ed : Editor)
  (document : TextDocument) (position : Position) (location : Location) :
  provideDefinition ed document position = Some location ->
  exists n keyNode valueNode,
    clicked_property ed document position n keyNode valueNode /\
    (value keyNode = Some (JString (js"file")) \/
     value keyNode = Some (JString (js"path"))).
Proof.
  intros H.
  destruct (provideDefinition_clicked _ _ _ _ H) as (n & k & v & Hc & Hcase).
  exists n, k, v. split; [exact Hc|].
  destruct Hcase as [[Hk _] | [Hk _]]; auto.
Qed.

Lemma resolvePathTarget_uri (h : Host) (pathNode : Located) :
  match resolvePathTarget h pathNode with
  | Unparsed targetUri | Parsed targetUri _ _ =>
      exists fileString, resolveVintageStoryPath h fileString = Some targetUri
  | _ => True
  end.
Proof.
  unfold resolvePathTarget.
  destruct (option_map node _) as [parent|]; [|exact I].
  destruct (negb _); [exact I|].
  destruct (findProperty parent (js"file")) as [fp|]; [|exact I].
  destruct (child 1 fp) as [fv|]; [|exact I].
  destruct (negb _); [exact I|].
  destruct (value fv) as [[fs| | |]|]; try exact I.
  destruct (resolveVintageStoryPath h fs) as [u|] eqn:Hr; [|exact I].
  destruct (openTextDocument h u) as [doc|]; [|exact I].
  destruct (parseTree h (getText doc)); eauto.
Qed.

(** [resolvePathDefinition] is [resolvePathTarget] followed by the
    walk. *)
Lemma resolvePathDefinition_target (h : Host) (pathNode : Located)
  (jsonPointer : JS.jsstring) :
  resolvePathDefinition h pathNode jsonPointer =
  match resolvePathTarget h pathNode with
  | NoTarget => Normal None
  | Rejected => Throw
  | Unparsed targetUri => Normal (Some (Location_at targetUri (mkPosition 0 0)))
  | Parsed targetUri doc tree =>
      Normal (Some (locateInTree targetUri doc tree jsonPointer))
  end.
Proof.
  unfold resolvePathDefinition, resolvePathTarget.
  destruct (option_map node _) as [parent|]; [|reflexivity].
  destruct (negb _); [reflexivity|].
  destruct (findProperty parent (js"file")) as [fp|]; [|reflexivity].
  destruct (child 1 fp) as [fv|]; [|reflexivity].
  destruct (negb _); [reflexivity|].
  destruct (value fv) as [[fs| | |]|]; try reflexivity.
  destruct (resolveVintageStoryPath h fs) as [u|]; [|reflexivity].
  destruct (openTextDocument h u) as [doc|]; [|reflexivity].
  destruct (parseTree h (getText doc)); reflexivity.
Qed.

Lemma locateInTree_uri (targetUri : Uri) (doc : TextDocument) (tree : Node)
  (jsonPointer : JS.jsstring) :
  uri (locateInTree targetUri doc tree jsonPointer) = targetUri.
Proof. unfold locateInTree. destruct (walkPointer _ _); reflexivity. Qed.

(** X13: every location go-to-definition returns, for a [file] or a
    [path] property, is in a file that [existsSync] confirmed during
    the request; for a [file] property it is the empty range at the
    start of that file. *)
Theorem provideDefinition_existing_file (ed : Editor) (document : TextDocument)
  (position : Position) (location : Location) :
  provideDefinition ed document position = Some location ->
  existsSync (host ed) (fsPath (uri location)) = true /\
  forall n keyNode valueNode,
    clicked_property ed document position n keyNode valueNode ->
    value keyNode = Some (JString (js"file")) ->
    range location = mkRange (mkPosition 0 0) (mkPosition 0 0).
Proof.
  intros H.
  destruct (provideDefinition_clicked _ _ _ _ H) as (n & k & v & Hc & Hcase).
  assert (Huri : exists fileString,
             resolveVintageStoryPath (host ed) fileString = Some (uri location)).
  { destruct Hcase as [[_ (s & _ & Hr)] | [_ [(s & _ & Hr) | (u & Ht & ->)]]].
    - unfold resolveFileDefinition in Hr.
      destruct (resolveVintageStoryPath (host ed) s) as [u|] eqn:E; [|discriminate].
      inversion Hr. eauto.
    - rewrite resolvePathDefinition_target in Hr.
      pose proof (resolvePathTarget_uri (host ed) (mkLocated v (ancestors n))) as Hu.
      destruct (resolvePathTarget (host ed) _) as [| |u|u d t]; try discriminate;
        inversion Hr; subst location; [exact Hu|].
      now rewrite locateInTree_uri.
    - pose proof (resolvePathTarget_uri (host ed) (mkLocated v (ancestors n))) as Hu.
      rewrite Ht in Hu. exact Hu. }
  destruct Huri as [fs Hfs]. split.
  - exact (proj1 (resolve_found_candidate _ _ _ Hfs)).
  - intros n' k' v' Hc' Hk'.
    destruct Hc as (tree & par & Hp & Hf & _ & Hpar & _ & Hk & _ & Hv & _).
    destruct Hc' as (tree' & par' & Hp' & Hf' & _ & Hpar' & _ & Hk0' & _ & Hv' & _).
    rewrite Hp in Hp'. inversion Hp'; subst tree'.
    rewrite Hf in Hf'. inversion Hf'; subst n'.
    rewrite Hpar in Hpar'. inversion Hpar'; subst par'.
    rewrite Hk in Hk0'. inversion Hk0'; subst k'.
    destruct Hcase as [[_ (s & _ & Hr)] | [Hpath _]];
      [|rewrite Hk' in Hpath; vm_compute in Hpath; discriminate].
    unfold resolveFileDefinition in Hr.
    destruct (resolveVintageStoryPath (host ed) s); [|discriminate].
    now inversion Hr.
Qed.

(** X14: the answer does not depend on which side of the property was
    clicked: two positions whose nodes are strings with the same parent
    chain (the key and the value of one property) get the same
    answer. *)
Theorem provideDefinition_either_side (ed : Editor) (document : TextDocument)
  (position position' : Position) (tree : Node) (n n' : Located) :
  parseTree (host ed) (getText document) = Some tree ->
  findNodeAtOffset ed tree (offsetAt ed document position) = Some n ->
  findNodeAtOffset ed tree (offsetAt ed document position') = Some n' ->
  type (node n) = NString ->
  type (node n') = NString ->
  ancestors n = ancestors n' ->
  provideDefinition ed document position = provideDefinition ed document position'.
Proof.
  intros Hp Hf Hf' Ht Ht' Ha. unfold provideDefinition.
  rewrite Hp, Hf, Hf', Ht, Ht'. unfold parent. rewrite Ha. reflexivity.
Qed.

Lemma provideDefinition_only_file_or_path_witness :
  exists n keyNode valueNode,
    clicked_property (request_editor pair_host) request_document
      (mkPosition 0 32) n keyNode valueNode /\
    (value keyNode = Some (JString (js"file")) \/
     value keyNode = Some (JString (js"path"))).
Proof.
  exact (provideDefinition_only_file_or_path (request_editor pair_host)
           request_document (mkPosition 0 32)
           (Location_at (file (js"/foo/assets/foo/a.json")) (mkPosition 0 0))
           eq_refl).
Defined.

Lemma provideDefinition_existing_file_witness :
  existsSync pair_host (js"/foo/assets/foo/a.json") = true.
Proof.
  exact (proj1 (provideDefinition_existing_file (request_editor pair_host)
                  request_document (mkPosition 0 10)
                  (Location_at (file (js"/foo/assets/foo/a.json")) (mkPosition 0 0))
                  eq_refl)).
Defined.

Lemma provideDefinition_either_side_witness :
  provideDefinition (request_editor pair_host) request_document (mkPosition 0 25) =
  provideDefinition (request_editor pair_host) request_document (mkPosition 0 32).
Proof.
  exact (provideDefinition_either_side (request_editor pair_host) request_document
           (mkPosition 0 25) (mkPosition 0 32) request_tree
           request_path_key request_node
           eq_refl eq_refl eq_refl eq_refl eq_refl eq_refl).
Defined.

(** *** Hover *)

Lemma includes_of_count (v : JS.jsstring) (c : N) :
  JS.count c v <> 0 -> includes v c = true.
Proof.
  unfold JS.count, includes. induction v as [|x v IH]; simpl; [congruence|].
  destruct (N.eqb c x); [reflexivity | exact IH].
Qed.

Lemma split_two (v : JS.jsstring) :
  JS.count 58 v = 1 <-> exists domain rest, JS.split 58 v = [domain; rest].
Proof.
  pose proof (split_length 58 v) as L. split.
  - intros H. rewrite H in L.
    destruct (JS.split 58 v) as [|a [|b [|c l]]]; try discriminate. eauto.
  - intros (a & b & E). rewrite E in L. simpl in L. lia.
Qed.

(** X15: on a string node the hover appears exactly when the string has
    one colon and the existence check does not find the domain, the
    text before the colon; the hover then names that domain and links
    to the download command with the encoded domain as its argument,
    and is marked trusted.  A string with no colon or with several gets
    no hover. *)
Theorem provideHover_iff (ed : Editor) (document : TextDocument)
  (position : Position) (tree : Node) (n : Located) (v : JS.jsstring) :
  parseTree (host ed) (getText document) = Some tree ->
  findNodeAtOffset ed tree (offsetAt ed document position) = Some n ->
  type (node n) = NString ->
  value (node n) = Some (JString v) ->
  let domain := hd [] (JS.split 58 v) in
  (provideHover ed document position <> None <->
   JS.count 58 v = 1 /\ checkDomainExists (host ed) domain = false)
  /\
  (forall hover, provideHover ed document position = Some hover ->
     hover = mkHover (missing_mod_text domain (commandArgs ed domain)) true).
Proof.
  intros Hp Hf Ht Hv domain. unfold provideHover. rewrite Hp, Hf, Ht, Hv.
  cbn [NodeType_eqb negb].
  destruct (Nat.eq_dec (JS.count 58 v) 1) as [Hc | Hc].
  - rewrite includes_of_count by (rewrite Hc; discriminate).
    destruct (proj1 (split_two v) Hc) as (d & r & Hs).
    subst domain. rewrite Hs. cbn [hd].
    destruct (checkDomainExists (host ed) d); split.
    + split; [congruence | intros [_ H]; discriminate].
    + discriminate.
    + split; [auto | discriminate].
    + intros hover E. now inversion E.
  - assert (Hnone : (if includes v 58
                     then match JS.split 58 v with
                          | [d; _] =>
                              if checkDomainExists (host ed) d then None
                              else Some (mkHover
                                           (missing_mod_text d (commandArgs ed d))
                                           true)
                          | _ => None
                          end
                     else None) = None).
    { destruct (includes v 58); [|reflexivity].
      destruct (JS.split 58 v) as [|a [|b [|c l]]] eqn:Hs; try reflexivity.
      exfalso. apply Hc. apply split_two. eauto. }
    rewrite Hnone. split.
    + split; [congruence | intros [H _]; contradiction].
    + discriminate.
Qed.

Lemma provideHover_iff_witness :
  provideHover (request_editor bare_host) request_document (mkPosition 0 10)
  = Some (mkHover (missing_mod_text (js"foo") (js"%5B%22foo%22%5D")) true).
Proof.
  destruct (provideHover (request_editor bare_host) request_document
              (mkPosition 0 10)) as [hover|] eqn:E.
  - f_equal.
    exact (proj2 (provideHover_iff (request_editor bare_host) request_document
                    (mkPosition 0 10) request_tree request_file_value
                    (js"foo:a.json") eq_refl eq_refl eq_refl eq_refl) hover E).
  - discriminate E.
Defined.

(** X16: hover and go-to-definition agree.  On a disk where a file
    under [assets/<domain>] implies that [assets/<domain>] exists, a
    string that resolves as a cross-reference never gets the
    mod-not-found hover. *)
Theorem no_hover_on_resolved_reference (ed : Editor) (document : TextDocument)
  (position : Position) (tree : Node) (n : Located)
  (v domain relativePath : JS.jsstring) (found : Uri) :
  parseTree (host ed) (getText document) = Some tree ->
  findNodeAtOffset ed tree (offsetAt ed document position) = Some n ->
  value (node n) = Some (JString v) ->
  JS.split 58 v = [domain; relativePath] ->
  assets_closed (host ed) domain relativePath ->
  resolveVintageStoryPath (host ed) v = Some found ->
  provideHover ed document position = None.
Proof.
  intros Hp Hf Hv Hs Hfs Hr. unfold provideHover. rewrite Hp, Hf, Hv.
  destruct (negb _); [reflexivity|].
  destruct (includes v 58); [|reflexivity]. rewrite Hs.
  destruct (resolve_found_candidate _ _ _ Hr)
    as (Hex & d & r & folders & Hs' & Hw & Hc).
  rewrite Hs in Hs'. inversion Hs'; subst d r.
  assert (He : checkDomainExists (host ed) domain = true).
  { unfold checkDomainExists. rewrite Hw.
    eapply candidate_holds_domain; eauto. }
  now rewrite He.
Qed.

Lemma pair_host_closed :
  assets_closed (host (request_editor pair_host)) (js"foo") (js"a.json").
Proof.
  intros dir. unfold request_editor, pair_host, disk_host.
  cbn [host path_join existsSync].
  change (dir ++ [js"assets"; js"foo"; js"a.json"])
    with (dir ++ [js"assets"; js"foo"] ++ [js"a.json"]).
  rewrite app_assoc, posix_join_snoc by (destruct dir; discriminate).
  generalize (posix_join (dir ++ [js"assets"; js"foo"])). intros P H.
  change (47%N :: js"a.json") with (js"/a.json") in H.
  cbn [existsb] in H. repeat rewrite orb_true_iff in H.
  destruct H as [H | [H | [H | [H | H]]]]; try discriminate;
    apply eqb_eq in H;
    try (apply (f_equal (@rev N)) in H; rewrite rev_app_distr in H; discriminate).
  apply (app_inv_tail (js"/a.json") P (js"/foo/assets/foo")) in H.
  now subst P.
Defined.

Lemma no_hover_on_resolved_reference_witness :
  provideHover (request_editor pair_host) request_document (mkPosition 0 10) = None.
Proof.
  exact (no_hover_on_resolved_reference (request_editor pair_host) request_document
           (mkPosition 0 10) request_tree request_file_value
           (js"foo:a.json") (js"foo") (js"a.json")
           (file (js"/foo/assets/foo/a.json"))
           eq_refl eq_refl eq_refl eq_refl pair_host_closed eq_refl).
Defined.

Lemma findProperty_sound_complete_witness :
  type dup_tree = NObject /\
  exists cs keyNode rest,
    children dup_tree = Some cs /\ In dup_first cs /\ type dup_first = NProperty /\
    children dup_first = Some (keyNode :: rest) /\
    value keyNode = Some (JString (js"a")).
Proof.
  exact (proj1 (findProperty_sound_complete dup_tree (js"a")) dup_first eq_refl).
Defined.

(* ================================================================== *)
(** ** Properties of the downloader *)

Import Downloader.

Section DownloaderFacts.

Context {S : Type} (env : Env S).

Lemma avoids_ret {A : Type} (p : Event -> bool) (a : A) :
  avoids p (ret S a).
Proof. intros s. reflexivity. Qed.

Lemma avoids_raise {A : Type} (p : Event -> bool) (e : Thrown) :
  avoids p (@raise S A e).
Proof. intros s. reflexivity. Qed.

Lemma avoids_lift {A : Type} (p : Event -> bool) (o : Outcome A) :
  avoids p (lift S o).
Proof. intros s. reflexivity. Qed.

Lemma avoids_emit (p : Event -> bool) (e : Event) :
  p e = false -> avoids p (emit S e).
Proof. intros H s. simpl. now rewrite H. Qed.

Lemma avoids_call {R : Type} (p : Event -> bool) (op : S -> R * S) (e : Event) :
  p e = false -> avoids p (call S op e).
Proof. intros H s. unfold call. destruct (op s). simpl. now rewrite H. Qed.

Lemma avoids_attempt {R : Type} (p : Event -> bool) (op : S -> Outcome R * S)
  (e : Event) :
  p e = false -> avoids p (attempt S op e).
Proof. intros H s. unfold attempt. destruct (op s). simpl. now rewrite H. Qed.

Lemma avoids_perform (p : Event -> bool) (op : S -> option Thrown * S) (e : Event) :
  p e = false -> avoids p (perform S op e).
Proof.
  intros H s. unfold perform. destruct (op s) as [[t|] s']; simpl; now rewrite H.
Qed.

Lemma avoids_bind {A B : Type} (p : Event -> bool) (m : M S A) (f : A -> M S B) :
  avoids p m -> (forall a, avoids p (f a)) -> avoids p (bind S m f).
Proof.
  intros Hm Hf s. unfold bind. specialize (Hm s).
  destruct (m s) as [[[a|e] s'] t]; simpl in *; [|exact Hm].
  specialize (Hf a s'). destruct (f a s') as [r t']. simpl in *.
  now rewrite filter_app, Hm, Hf.
Qed.

Lemma avoids_catch {A : Type} (p : Event -> bool) (m : M S A)
  (handler : Thrown -> M S A) :
  avoids p m -> (forall e, avoids p (handler e)) -> avoids p (catch S m handler).
Proof.
  intros Hm Hh s. unfold catch. specialize (Hm s).
  destruct (m s) as [[[a|e] s'] t]; simpl in *; [exact Hm|].
  specialize (Hh e s'). destruct (handler e s') as [r t']. simpl in *.
  now rewrite filter_app, Hm, Hh.
Qed.

Lemma avoids_swallow {A : Type} (p : Event -> bool) (m : M S A) :
  avoids p m -> avoids p (swallow S m).
Proof.
  intros Hm s. unfold swallow. specialize (Hm s).
  destruct (m s) as [[o s'] t]. exact Hm.
Qed.

Lemma avoids_if {A : Type} (p : Event -> bool) (c : bool) (m1 m2 : M S A) :
  avoids p m1 -> avoids p m2 -> avoids p (if c then m1 else m2).
Proof. destruct c; auto. Qed.

Lemma fetchJson_avoids (p : Event -> bool) (url : JS.jsstring) :
  (forall x, p (Exec x) = false) -> (forall x, p (Exists x) = false) ->
  (forall x, p (Read x) = false) -> (forall x, p (Unlink x) = false) ->
  avoids p (fetchJson S env url).
Proof.
  intros He Hx Hr Hu. unfold fetchJson.
  apply avoids_bind.
  { intros s. destruct (now env s). reflexivity. }
  intros stamp. apply avoids_bind; [now apply avoids_call|].
  intros [e|]; [apply avoids_raise|].
  apply avoids_bind; [now apply avoids_call|].
  intros present. apply avoids_if; [|apply avoids_raise].
  apply avoids_catch.
  - apply avoids_bind; [now apply avoids_attempt|]. intros content.
    apply avoids_bind; [apply avoids_lift|]. intros data.
    apply avoids_bind; [apply avoids_swallow; now apply avoids_perform|].
    intros _. apply avoids_ret.
  - intros e. apply avoids_bind; [apply avoids_swallow; now apply avoids_attempt|].
    intros _. apply avoids_raise.
Qed.

Lemma downloadFile_avoids (p : Event -> bool) (url destPath : JS.jsstring) :
  (forall x, p (Exec x) = false) -> (forall x, p (Exists x) = false) ->
  (forall x, p (Unlink x) = false) ->
  avoids p (downloadFile S env url destPath).
Proof.
  intros He Hx Hu. unfold downloadFile.
  apply avoids_bind; [now apply avoids_call|].
  intros [e|].
  - apply avoids_bind; [now apply avoids_call|]. intros present.
    apply avoids_bind; [|intros _; apply avoids_raise].
    apply avoids_if; [apply avoids_swallow; now apply avoids_perform | apply avoids_ret].
  - apply avoids_bind; [now apply avoids_call|]. intros present.
    apply avoids_if; [apply avoids_ret | apply avoids_raise].
Qed.

Lemma announces_bind {A : Type} (m : M S A) (f : A -> M S bool) :
  avoids is_notification m -> (forall a, announces (f a)) ->
  announces (bind S m f).
Proof.
  intros Hm Hf s. unfold bind. specialize (Hm s).
  destruct (m s) as [[[a|e] s'] t]; simpl in *; [|exact Hm].
  specialize (Hf a s'). destruct (f a s') as [[[b|e] s''] t'].
  - destruct Hf as (msg & Hmsg & Hb). exists msg.
    now rewrite filter_app, Hm, Hmsg.
  - now rewrite filter_app, Hm, Hf.
Qed.

Lemma announces_message (e : Event) (b : bool) :
  is_notification e = true -> is_information e = b ->
  announces (bind S (emit S e) (fun _ => ret S b)).
Proof.
  intros Hn Hi s. simpl. rewrite Hn. exists e. split; [reflexivity|].
  rewrite Hi. tauto.
Qed.

Lemma announces_raise (e : Thrown) : announces (@raise S bool e).
Proof. intros s. reflexivity. Qed.

Lemma install_announces (modId : JS.jsstring) (workspaceFolder : WorkspaceFolder)
  (modInfo : Any) :
  announces (install S env modId workspaceFolder modInfo).
Proof.
  unfold install.
  destruct (usable_releases modInfo) as [[latestRelease others]|];
    [|now apply announces_message].
  apply announces_bind; [apply avoids_lift|]. intros downloadUrl.
  destruct (negb (truthy downloadUrl)); [now apply announces_message|].
  apply announces_bind; [apply avoids_lift|]. intros url.
  apply announces_bind; [apply avoids_lift|]. intros fileName.
  apply announces_bind; [apply avoids_lift|]. intros title.
  apply announces_bind; [now apply avoids_emit|]. intros _.
  apply announces_bind; [now apply downloadFile_avoids|]. intros _.
  apply announces_bind; [now apply avoids_emit|]. intros _.
  apply announces_bind; [now apply avoids_perform|]. intros _.
  apply announces_bind; [now apply avoids_call|]. intros present.
  apply announces_bind;
    [apply avoids_if; [apply avoids_ret | now apply avoids_perform]|]. intros _.
  apply announces_bind; [now apply avoids_perform|]. intros _.
  apply announces_bind; [now apply avoids_perform|]. intros _.
  now apply announces_message.
Qed.

Lemma run_announces (modId : JS.jsstring) (workspaceFolder : WorkspaceFolder) :
  announces (bind S (fetchModInfo S env modId)
               (install S env modId workspaceFolder)).
Proof.
  apply announces_bind; [|intros a; apply install_announces].
  now apply fetchJson_avoids.
Qed.

(** X17: every run of [downloadMod] shows the user exactly one message,
    whatever the network, the disk and the archive do: an information
    message when it returns [true], an error message when it returns
    [false]. *)
Theorem downloadMod_one_message (modId : JS.jsstring)
  (workspaceFolder : WorkspaceFolder) (s : S) :
  exists msg,
    filter is_notification (snd (downloadMod S env modId workspaceFolder s)) = [msg]
    /\ (fst (fst (downloadMod S env modId workspaceFolder s)) = true
        <-> is_information msg = true).
Proof.
  unfold downloadMod.
  pose proof (run_announces modId workspaceFolder s) as H.
  destruct (bind S (fetchModInfo S env modId) (install S env modId workspaceFolder) s)
    as [[[b|e] s'] t]; simpl.
  - exact H.
  - eexists. rewrite filter_app, H. simpl. split; [reflexivity|].
    split; discriminate.
Qed.

(** *** How a run that succeeds went *)

Lemma bind_ok {A B : Type} (m : M S A) (f : A -> M S B) (s s2 : S) (b : B)
  (t : list Event) :
  bind S m f s = ((Ok b, s2), t) ->
  exists a s1 t1 t2,
    m s = ((Ok a, s1), t1) /\ f a s1 = ((Ok b, s2), t2) /\ t = t1 ++ t2.
Proof.
  unfold bind. destruct (m s) as [[[a|e] s1] t1]; [|discriminate].
  destruct (f a s1) as [r t2] eqn:Hf. intros H. inversion H; subst.
  exists a, s1, t1, t2. auto.
Qed.


Lemma call_ok {R : Type} (op : S -> R * S) (e : Event) (s s' : S) (r : R)
  (t : list Event) :
  call S op e s = ((Ok r, s'), t) -> op s = (r, s') /\ t = [e].
Proof.
  unfold call. destruct (op s) as [r0 s0]. intros H. inversion H; subst. auto.
Qed.


Lemma lift_ok {A : Type} (o : Outcome A) (s s' : S) (a : A) (t : list Event) :
  lift S o s = ((Ok a, s'), t) -> o = Ok a /\ s' = s /\ t = [].
Proof. unfold lift. intros H. inversion H; subst. auto. Qed.


Lemma fetchJson_ok (url : JS.jsstring) (s s' : S) (data : Any) (t : list Event) :
  fetchJson S env url s = ((Ok data, s'), t) ->
  exists stamp, fetch_works S env url s stamp data s' /\ t = fetched S env stamp url.
Proof.
  unfold fetchJson. intros H.
  apply bind_ok in H as (stamp & s1 & t1 & t2 & Hnow & H & ->).
  destruct (now env s) as [stamp' s1'] eqn:Hn. inversion Hnow; subst. clear Hnow.
  apply bind_ok in H as (error & s2 & t1 & t3 & Hexec & H & ->).
  apply call_ok in Hexec as [Hexec ->].
  destruct error as [e|]; [discriminate|].
  apply bind_ok in H as (present & s3 & t1 & t4 & Hex & H & ->).
  apply call_ok in Hex as [Hex ->].
  destruct present; [|discriminate].
  unfold catch in H.
  match type of H with
  | match ?body s3 with _ => _ end = _ => destruct (body s3) as [[[d|e] s4] t5] eqn:Hb
  end.
  - inversion H; subst. clear H.
    apply bind_ok in Hb as (content & s5 & t1 & t6 & Hread & H & ->).
    unfold attempt in Hread.
    destruct (readFileSync env _ s3) as [r s5'] eqn:Hr. inversion Hread; subst.
    clear Hread.
    apply bind_ok in H as (data' & s6 & t1 & t7 & Hparse & H & ->).
    apply lift_ok in Hparse as (Hparse & -> & ->).
    apply bind_ok in H as (u & s7 & t1 & t8 & Hsw & H & ->).
    unfold swallow, perform in Hsw.
    destruct (unlinkSync env _ s5) as [removal s7'] eqn:Hu.
    exists stamp. split.
    + exists s1, s2, s3, s5, content, removal. unfold temp_file.
      destruct removal; inversion Hsw; subst; inversion H; subst; auto 10.
    + destruct removal; inversion Hsw; subst; inversion H; subst; reflexivity.
  - destruct (bind S _ _ s4) as [[[d|e'] s5] t6] eqn:Hh; [|discriminate].
    apply bind_ok in Hh as (u & s6 & t1 & t7 & _ & Hraise & _). discriminate.
Qed.

Lemma fetchJson_works (url : JS.jsstring) (s s' : S) (stamp : JS.jsstring)
  (data : Any) :
  fetch_works S env url s stamp data s' ->
  fetchJson S env url s = ((Ok data, s'), fetched S env stamp url).
Proof.
  intros (s1 & s2 & s3 & s4 & content & removal & Hn & He & Hx & Hr & Hp & Hu).
  unfold temp_file in *.
  unfold fetchJson, fetched, bind, catch, swallow, call, attempt, perform, lift, ret.
  rewrite Hn. cbv beta iota zeta. rewrite He. cbv beta iota zeta.
  rewrite Hx. cbv beta iota zeta. rewrite Hr. cbv beta iota zeta.
  rewrite Hp. cbv beta iota zeta. rewrite Hu.
  destruct removal; reflexivity.
Qed.





(** *** Temporary and partial files *)

Ltac run_world :=
  repeat (match goal with
          | |- context [now env ?x] => destruct (now env x) as [? ?]
          | |- context [exec env ?c ?x] => destruct (exec env c x) as [[?|] ?]
          | |- context [existsSync env ?c ?x] =>
              destruct (existsSync env c x) as [[|] ?]
          | |- context [readFileSync env ?c ?x] =>
              destruct (readFileSync env c x) as [[?|?] ?]
          | |- context [JSON_parse env ?c] => destruct (JSON_parse env c) as [?|?]
          | |- context [unlinkSync env ?c ?x] =>
              destruct (unlinkSync env c x) as [[?|] ?]
          end; cbn).

(** X19: [fetchJson] resolves exactly when every step works: [curl]
    reports no error, the temporary file exists, it is read and its
    content parses; the events are then the command, the test, the
    reading and the attempt to remove the temporary file.  That attempt
    is made exactly when the promise resolves; whether the removal
    itself throws is ignored.  In every other run the promise is
    rejected and no removal is attempted. *)
Theorem fetchJson_cleanup (url : JS.jsstring) (s : S) :
  (forall data s' t,
     fetchJson S env url s = ((Ok data, s'), t) <->
     exists stamp,
       fetch_works S env url s stamp data s' /\ t = fetched S env stamp url)
  /\
  (existsb is_unlink (snd (fetchJson S env url s)) = true <->
   exists data, fst (fst (fetchJson S env url s)) = Ok data).
Proof.
  split.
  - intros data s' t. split.
    + apply fetchJson_ok.
    + intros (stamp & Hw & ->). now apply fetchJson_works.
  - unfold fetchJson, bind, catch, swallow, call, attempt, perform, lift, ret,
      raise.
    run_world;
      (split; [intros H; try discriminate H; eauto
              | intros [data H]; try discriminate H; reflexivity]).
Qed.

(** X20: [downloadFile] never removes the file it was asked to write
    when it resolves; it removes it only after [curl] reported an
    error, and then exactly when the file exists. *)
Theorem downloadFile_cleanup (url destPath : JS.jsstring) (s : S) :
  (forall u, fst (fst (downloadFile S env url destPath s)) = Ok u ->
     snd (downloadFile S env url destPath s)
     = [Exec (download_command S env destPath url); Exists destPath])
  /\
  (existsb is_unlink (snd (downloadFile S env url destPath s)) = true ->
   exists e s1 s2,
     exec env (download_command S env destPath url) s = (Some e, s1) /\
     existsSync env destPath s1 = (true, s2) /\
     fst (fst (downloadFile S env url destPath s)) = Raise e /\
     snd (downloadFile S env url destPath s)
     = [Exec (download_command S env destPath url); Exists destPath;
        Unlink destPath]).
Proof.
  unfold downloadFile, bind, catch, swallow, call, attempt, perform, lift, ret, raise.
  destruct (exec env (download_command S env destPath url) s) as [[e|] s1] eqn:E;
    cbn;
    destruct (existsSync env destPath s1) as [[|] s2] eqn:X; cbn;
    try (destruct (unlinkSync env destPath s2) as [[?|] ?]; cbn);
    (split; [intros u H; try discriminate H; reflexivity
            | intros H; try discriminate H; eauto 8]).
Qed.

(** *** The command *)

(** X21: one invocation of the download command shows at most one
    message, and none exactly when no mod id was supplied, neither as
    argument nor in the input box. *)
Theorem downloadCommand_messages (modId : option JS.jsstring) (s : S) :
  let shown := filter is_notification (snd (downloadCommand S env modId s)) in
  (List.length shown <= 1)%nat /\
  (shown = [] <->
   (modId = None \/ modId = Some []) /\
   (fst (showInputBox env s) = None \/ fst (showInputBox env s) = Some [])).
Proof.
  assert (Hrun : forall id folder s0,
             exists msg, filter is_notification
                           (snd (downloadMod S env id folder s0)) = [msg]).
  { intros id folder s0. unfold downloadMod.
    pose proof (run_announces id folder s0) as H.
    destruct (bind S (fetchModInfo S env id) (install S env id folder) s0)
      as [[[b|e] s'] t]; cbn [snd].
    - destruct H as (msg & H & _). eauto.
    - eexists. now rewrite filter_app, H. }
  unfold downloadCommand.
  destruct modId as [[|c rest]|].
  - destruct (showInputBox env s) as [[[|c rest]|] s1]; cbn [fst].
    + cbn. split; [lia|]. split; auto.
    + destruct (workspaceFolders env) as [[|folder folders]|].
      * cbn. split; [lia|]. split; [discriminate|].
        intros [_ [H | H]]; discriminate.
      * destruct (Hrun (c :: rest) folder s1) as [msg Hmsg].
        destruct (downloadMod S env (c :: rest) folder s1) as [[b s2] t2].
        cbn [snd] in *. rewrite filter_app, Hmsg. cbn. split; [lia|].
        split; [discriminate|]. intros [_ [H | H]]; discriminate.
      * cbn. split; [lia|]. split; [discriminate|].
        intros [_ [H | H]]; discriminate.
    + cbn. split; [lia|]. split; auto.
  - destruct (workspaceFolders env) as [[|folder folders]|].
    + cbn. split; [lia|]. split; [discriminate|].
      intros [[H | H] _]; discriminate.
    + destruct (Hrun (c :: rest) folder s) as [msg Hmsg].
      destruct (downloadMod S env (c :: rest) folder s) as [[b s2] t2].
      cbn [snd app] in *. rewrite Hmsg. cbn. split; [lia|].
      split; [discriminate|]. intros [[H | H] _]; discriminate.
    + cbn. split; [lia|]. split; [discriminate|].
      intros [[H | H] _]; discriminate.
  - destruct (showInputBox env s) as [[[|c rest]|] s1]; cbn [fst].
    + cbn. split; [lia|]. split; auto.
    + destruct (workspaceFolders env) as [[|folder folders]|].
      * cbn. split; [lia|]. split; [discriminate|].
        intros [_ [H | H]]; discriminate.
      * destruct (Hrun (c :: rest) folder s1) as [msg Hmsg].
        destruct (downloadMod S env (c :: rest) folder s1) as [[b s2] t2].
        cbn [snd] in *. rewrite filter_app, Hmsg. cbn. split; [lia|].
        split; [discriminate|]. intros [_ [H | H]]; discriminate.
      * cbn. split; [lia|]. split; [discriminate|].
        intros [_ [H | H]]; discriminate.
    + cbn. split; [lia|]. split; auto.
Qed.

End DownloaderFacts.


Lemma fetchJson_cleanup_witness :
  exists stamp,
    fetch_works unit working_env (API_BASE_URL ++ js"rust") tt stamp rust_info tt /\
    fetched unit working_env (js"1700000000000") (API_BASE_URL ++ js"rust")
    = fetched unit working_env stamp (API_BASE_URL ++ js"rust").
Proof.
  exact (proj1 (proj1 (fetchJson_cleanup working_env (API_BASE_URL ++ js"rust") tt)
                  rust_info tt
                  (fetched unit working_env (js"1700000000000")
                     (API_BASE_URL ++ js"rust")))
           eq_refl).
Defined.
